(** * Verification model of mosh-lite's state-synchronisation core

    Shallow embedding of the Python modules under [src/mosh]:
    [state.py] (states and opcode diffs), [inflight.py] (the inflight
    tracker), [receiver.py] (the receiving endpoint), [transport.py]
    (the transporter) and [datagram.py] (the packet codec).

    Conventions.
    - A Python [str] is a [list ascii] ([pystr]); characters are 8-bit.
    - Python exceptions are the [Err] branch of [result].
    - JSON text produced by [json.dumps] is represented by the JSON value it
      encodes ([json]); [json.loads (json.dumps v) = v] for the values built
      here, so a patch travels as its value.
    - Python floats (timestamps, RTT estimates) are rationals [Q]. *)

From Stdlib Require Import Ascii String ZArith QArith Qabs Qminmax Lia.
From stdpp Require Import base list gmap.
From Stdlib Require Import Sorted Lqa.

Open Scope Z_scope.
Set Warnings "-register-all".

(* ------------------------------------------------------------------ *)
(** ** Python values *)

Definition pystr := list ascii.

(** String literals of the source. *)
Definition lit (s : string) : pystr := list_ascii_of_string s.

Inductive pyerr :=
| ValueError | TypeError | IndexError | KeyError | AssertionError
| StructError.

Inductive result (A : Type) :=
| Ok (a : A)
| Err (e : pyerr).
Arguments Ok {A} a.
Arguments Err {A} e.

Definition rbind {A B} (m : result A) (k : A -> result B) : result B :=
  match m with Ok a => k a | Err e => Err e end.

Notation "x <- m ;; k" := (rbind m (fun x => k))
  (at level 100, m at next level, right associativity).

(** Decoded JSON values (numbers are integers: the patches carry only
    integer indices). *)
Inductive json :=
| JNull
| JBool (b : bool)
| JInt (z : Z)
| JStr (s : pystr)
| JArr (xs : list json)
| JObj (kvs : list (pystr * json)).

Definition pystr_eqb (s t : pystr) : bool :=
  if List.list_eq_dec ascii_dec s t then true else false.

(** [v == "tag"] in Python. *)
Definition is_str (v : json) (t : pystr) : bool :=
  match v with JStr s => pystr_eqb s t | _ => false end.

(** The items produced by iterating a value ([for x in v],
    [list.extend(v)]): characters of a string, elements of a list, keys of
    a dict; anything else is not iterable. *)
Definition iter_items (v : json) : result (list json) :=
  match v with
  | JStr s => Ok (map (fun c => JStr [c]) s)
  | JArr xs => Ok xs
  | JObj kvs => Ok (map (fun kv => JStr kv.1) kvs)
  | _ => Err TypeError
  end.

(** [v[0]]. *)
Definition index0 (v : json) : result json :=
  match v with
  | JArr (x :: _) => Ok x
  | JArr [] => Err IndexError
  | JStr (c :: _) => Ok (JStr [c])
  | JStr [] => Err IndexError
  | JObj _ => Err KeyError
  | _ => Err TypeError
  end.

(** A slice bound: an int (a bool is an int), or [None] for the default. *)
Definition slice_index (v : json) : result (option Z) :=
  match v with
  | JInt z => Ok (Some z)
  | JBool b => Ok (Some (if b then 1 else 0))
  | JNull => Ok None
  | _ => Err TypeError
  end.

(** Python's [s[lo:hi]]: negative bounds count from the end, bounds are
    clamped to [0, len s]. *)
Definition py_slice {A} (s : list A) (lo hi : option Z) : list A :=
  let len := Z.of_nat (length s) in
  let norm (x : option Z) (d : Z) :=
    match x with
    | None => d
    | Some z => if z <? 0 then Z.max 0 (z + len) else Z.min z len
    end in
  let lo' := norm lo 0 in
  let hi' := norm hi len in
  firstn (Z.to_nat (hi' - lo')) (skipn (Z.to_nat lo') s).

(** [str.join] with the empty separator: every item must be a string. *)
Fixpoint py_join (items : list json) : result pystr :=
  match items with
  | [] => Ok []
  | JStr s :: rest => r <- py_join rest ;; Ok (s ++ r)
  | _ :: _ => Err TypeError
  end.

Definition chars (s : pystr) : list json := map (fun c => JStr [c]) s.

(* ------------------------------------------------------------------ *)
(** ** [State] (state.py) *)

(** A [State]; [time_sent] is the float [time.time()] of [mark_sent]. *)
Record State := mkState {
  string : pystr;
  num : Z;
  time_sent : option Q
}.

(** [State(s)]: the number is drawn from the class-wide counter
    [State.curr_stateno], which is incremented; the counter is threaded
    explicitly. *)
Definition new_State (s : pystr) (curr_stateno : Z) : State * Z :=
  (mkState s curr_stateno None, curr_stateno + 1).

(** One iteration of the loop of [State.apply] on opcode [op], with
    [result] the list being extended. *)
Definition apply_op (src : pystr) (acc : list json) (op : json)
  : result (list json) :=
  tag <- index0 op ;;
  if is_str tag (lit "equal") then
    match op with
    | JArr [_; i1; i2; _; _] =>
        lo <- slice_index i1 ;; hi <- slice_index i2 ;;
        Ok (acc ++ chars (py_slice src lo hi))
    | _ => Err ValueError
    end
  else if is_str tag (lit "delete") then
    match op with
    | JArr [_; _; _; _] => Ok acc
    | _ => Err ValueError
    end
  else if is_str tag (lit "insert") then
    match op with
    | JArr [_; _; _; new_chunk] =>
        items <- iter_items new_chunk ;; Ok (acc ++ items)
    | _ => Err ValueError
    end
  else if is_str tag (lit "replace") then
    (* [*_, _, new_chunk = op[-2:]] needs at least two elements *)
    match op with
    | JArr xs =>
        match rev xs with
        | new_chunk :: _ :: _ =>
            items <- iter_items new_chunk ;; Ok (acc ++ items)
        | _ => Err ValueError
        end
    | _ => Err ValueError
    end
  else Ok acc.

Fixpoint apply_ops (src : pystr) (acc : list json) (ops : list json)
  : result (list json) :=
  match ops with
  | [] => Ok acc
  | op :: rest => acc' <- apply_op src acc op ;; apply_ops src acc' rest
  end.

(** The string computed by [State.apply] from the decoded patch. *)
Definition apply_patch (src : pystr) (patch : json) : result pystr :=
  ops <- iter_items patch ;;
  items <- apply_ops src [] ops ;;
  py_join items.

(** [State.apply]: also constructs the resulting [State]. *)
Definition State_apply (self : State) (patch : json) (curr_stateno : Z)
  : result (State * Z) :=
  r <- apply_patch (string self) patch ;;
  Ok (new_State r curr_stateno).

(* ------------------------------------------------------------------ *)
(** ** Patch generation ([State.generate_patch], difflib opcodes) *)

(** [s[i:k]] for in-range natural bounds. *)
Definition sub {A} (s : list A) (i k : nat) : list A :=
  firstn (k - i) (skipn i s).

Definition slice_nat {A} (s : list A) (i k : nat) : list A :=
  py_slice s (Some (Z.of_nat i)) (Some (Z.of_nat k)).

Section Difflib.

(** [SequenceMatcher(None, a, b).get_matching_blocks()]: a list of triples
    [(i, j, n)] with [a[i:i+n] == b[j:j+n]], increasing in [i] and [j],
    ending with the sentinel [(len(a), len(b), 0)]. The longest-match
    search that picks the blocks is a parameter of the development; the
    contract it meets is [blocks_ok] below. *)
Variable get_matching_blocks : pystr -> pystr -> list (nat * nat * nat).

(** [get_opcodes] (difflib), from the matching blocks, starting at
    positions [i] in [a] and [j] in [b]. *)
Fixpoint opcodes_from (i j : nat) (blocks : list (nat * nat * nat))
  : list (pystr * nat * nat * nat * nat) :=
  match blocks with
  | [] => []
  | (ai, bj, size) :: rest =>
      let tag :=
        if (i <? ai)%nat && (j <? bj)%nat then lit "replace"
        else if (i <? ai)%nat then lit "delete"
        else if (j <? bj)%nat then lit "insert"
        else [] in
      let tagged := if pystr_eqb tag [] then [] else [(tag, i, ai, j, bj)] in
      let i' := (ai + size)%nat in
      let j' := (bj + size)%nat in
      tagged
        ++ (if (size =? 0)%nat then [] else [(lit "equal", ai, i', bj, j')])
        ++ opcodes_from i' j' rest
  end.

Definition get_opcodes (a b : pystr) : list (pystr * nat * nat * nat * nat) :=
  opcodes_from 0 0 (get_matching_blocks a b).

(** The body of the loop of [generate_patch] for one opcode. *)
Definition patch_entry (a b : pystr) (o : pystr * nat * nat * nat * nat)
  : list json :=
  let '(tag, i1, i2, j1, j2) := o in
  let zi1 := JInt (Z.of_nat i1) in
  let zi2 := JInt (Z.of_nat i2) in
  let zj1 := JInt (Z.of_nat j1) in
  let zj2 := JInt (Z.of_nat j2) in
  if pystr_eqb tag (lit "equal") then
    [JArr [JStr (lit "equal"); zi1; zi2; zj1; zj2]]
  else if pystr_eqb tag (lit "delete") then
    [JArr [JStr (lit "delete"); zi1; zi2; JStr (slice_nat a i1 i2)]]
  else if pystr_eqb tag (lit "insert") then
    [JArr [JStr (lit "insert"); zj1; zj2; JStr (slice_nat b j1 j2)]]
  else if pystr_eqb tag (lit "replace") then
    [JArr [JStr (lit "replace"); zi1; zi2; zj1; zj2;
           JStr (slice_nat a i1 i2); JStr (slice_nat b j1 j2)]]
  else [].

(** [self.generate_patch(other)] on the strings of the two states; the
    result is the list passed to [json.dumps]. *)
Definition generate_patch (a b : pystr) : json :=
  JArr (flat_map (patch_entry a b) (get_opcodes a b)).

End Difflib.

(** The contract of [get_matching_blocks a b] from positions [i], [j]. *)
Fixpoint blocks_ok_from (a b : pystr) (i j : nat)
  (blocks : list (nat * nat * nat)) : bool :=
  match blocks with
  | [] => false
  | (ai, bj, n) :: rest =>
      (i <=? ai)%nat && (j <=? bj)%nat
      && (ai + n <=? length a)%nat && (bj + n <=? length b)%nat
      && pystr_eqb (sub a ai (ai + n)) (sub b bj (bj + n))
      && match rest with
         | [] => (ai =? length a)%nat && (bj =? length b)%nat && (n =? 0)%nat
         | _ :: _ => (0 <? n)%nat && blocks_ok_from a b (ai + n) (bj + n) rest
         end
  end.

Definition blocks_ok (a b : pystr) (blocks : list (nat * nat * nat)) : bool :=
  blocks_ok_from a b 0 0 blocks.

(** A matcher meeting the contract: the single common block found by
    scanning for the longest common prefix (used as a concrete instance). *)
Fixpoint common_prefix (a b : pystr) : nat :=
  match a, b with
  | x :: a', y :: b' => if ascii_dec x y then S (common_prefix a' b') else 0
  | _, _ => 0
  end.

Definition prefix_blocks (a b : pystr) : list (nat * nat * nat) :=
  let n := common_prefix a b in
  if (n =? 0)%nat then [(length a, length b, 0%nat)]
  else [(0%nat, 0%nat, n); (length a, length b, 0%nat)].

(* ------------------------------------------------------------------ *)
(** ** [SortedList] (sortedcontainers) on integers *)

(** [bisect_left(x)]: the index of the first element [>= x]. *)
Fixpoint bisect_left (l : list Z) (x : Z) : nat :=
  match l with
  | [] => 0
  | y :: l' => if y <? x then S (bisect_left l' x) else 0
  end.

(** [add(x)]: insertion at the sorted position. *)
Fixpoint sl_add (x : Z) (l : list Z) : list Z :=
  match l with
  | [] => [x]
  | y :: l' => if x <? y then x :: y :: l' else y :: sl_add x l'
  end.

(** [remove(x)]: removes one occurrence, [ValueError] when absent. *)
Fixpoint sl_remove (x : Z) (l : list Z) : result (list Z) :=
  match l with
  | [] => Err ValueError
  | y :: l' => if y =? x then Ok l' else (r <- sl_remove x l' ;; Ok (y :: r))
  end.

(* ------------------------------------------------------------------ *)
(** ** [InflightTracker] (inflight.py) *)

Record InflightTracker := mkTracker {
  inflight_state_numbers : list Z;
  dependencies : gmap Z (option Z);
  inflight_dependencies : list Z;
  highest_ack : Z
}.

Definition tracker_init : InflightTracker :=
  mkTracker [] ∅ [] 0.

(** The [while ind >= 0] loop of [acked]: [k] iterations, each appending
    [inflight_state_numbers[0]] to [all_acked] and popping it. *)
Fixpoint pop_front (k : nat) (l all_acked : list Z)
  : result (list Z * list Z) :=
  match k with
  | O => Ok (all_acked, l)
  | S k' =>
      match l with
      | [] => Err IndexError
      | y :: l' => pop_front k' l' (all_acked ++ [y])
      end
  end.

(** The [for acked_state_number in all_acked] loop of [acked]. *)
Fixpoint drop_dependencies (deps : gmap Z (option Z)) (all_acked : list Z)
  (inflight_deps : list Z) : result (list Z) :=
  match all_acked with
  | [] => Ok inflight_deps
  | k :: rest =>
      match deps !! k with
      | None => Err KeyError
      | Some None => drop_dependencies deps rest inflight_deps
      | Some (Some x) =>
          d' <- sl_remove x inflight_deps ;; drop_dependencies deps rest d'
      end
  end.

(** [acked(state_number)]: [ind = bisect_left(state_number)], then
    [ind + 1] elements are popped from the front. *)
Definition acked (t : InflightTracker) (state_number : Z)
  : result InflightTracker :=
  let ind := bisect_left (inflight_state_numbers t) state_number in
  popped <- pop_front (S ind) (inflight_state_numbers t) [] ;;
  let '(all_acked, rest) := popped in
  _ <- (if (1 <=? length all_acked)%nat then Ok tt else Err AssertionError) ;;
  deps' <- drop_dependencies (dependencies t) all_acked
             (inflight_dependencies t) ;;
  Ok (mkTracker rest (dependencies t) deps' state_number).

(** [sent(state_number, depends_on)]. *)
Definition sent (t : InflightTracker) (state_number : Z)
  (depends_on : option Z) : InflightTracker :=
  let deps' :=
    match depends_on with
    | Some d => sl_add d (inflight_dependencies t)
    | None => inflight_dependencies t
    end in
  mkTracker (sl_add state_number (inflight_state_numbers t))
    (<[state_number := depends_on]> (dependencies t)) deps' (highest_ack t).

Definition min_inflight_dependency (t : InflightTracker) : option Z :=
  head (inflight_dependencies t).

(** Calls made on a tracker. *)
Inductive tracker_op :=
| OpSent (state_number : Z) (depends_on : option Z)
| OpAcked (state_number : Z).

Definition tracker_step (t : InflightTracker) (op : tracker_op)
  : result InflightTracker :=
  match op with
  | OpSent n d => Ok (sent t n d)
  | OpAcked n => acked t n
  end.

Fixpoint run_tracker (t : InflightTracker) (ops : list tracker_op)
  : result InflightTracker :=
  match ops with
  | [] => Ok t
  | op :: rest => t' <- tracker_step t op ;; run_tracker t' rest
  end.

(* ------------------------------------------------------------------ *)
(** ** [TransportInstruction] (transport.py) *)

Record TransportInstruction := mkTI {
  old_num : Z;
  new_num : Z;
  ack_num : Z;
  throwaway_num : Z;
  diff : json
}.

(* ------------------------------------------------------------------ *)
(** ** The receiver (receiver.py) *)

(** The module-level globals of [receiver.py], with the class-wide
    [State.curr_stateno] of the receiving process. *)
Record Receiver := mkReceiver {
  states : gmap Z State;
  highest_received : Z;
  total_packets_received : Z;
  packets_discarded : Z;
  curr_stateno : Z
}.

(** Module import: [states = {0: State(empty string)}] constructs the first [State]
    of the process (number 1). *)
Definition receiver_init : Receiver :=
  let '(s0, ctr) := new_State [] 1 in
  mkReceiver {[0 := s0]} 0 0 0 ctr.

Definition lookup_or_keyerror {V} (m : gmap Z V) (k : Z) : result V :=
  match m !! k with Some v => Ok v | None => Err KeyError end.

Section ReceiverStep.

Variable get_matching_blocks : pystr -> pystr -> list (nat * nat * nat).

(** [on_receive(instruction)]: the globals after the call and either the
    calls [transport.send(old_num, new_num, ack_num, throwaway_num, diff)]
    made, each recorded as the instruction it sends, or the exception that
    leaves the call. The globals are returned in both cases: an exception
    raised by [State.apply] leaves [total_packets_received] already
    incremented, and one raised by the lookup [states[highest_received]]
    leaves [states] and [highest_received] already updated. Logging is
    omitted. *)
Definition on_receive (r : Receiver) (instruction : TransportInstruction)
  : Receiver * result (list TransportInstruction) :=
  let total := total_packets_received r + 1 in
  match states r !! old_num instruction with
  | Some old_state =>
      match State_apply old_state (diff instruction) (curr_stateno r) with
      | Err e =>
          (mkReceiver (states r) (highest_received r) total
             (packets_discarded r) (curr_stateno r), Err e)
      | Ok (new_state, ctr) =>
          let states' := <[new_num instruction := new_state]> (states r) in
          let highest := Z.max (highest_received r) (new_num instruction) in
          let r' := mkReceiver states' highest total (packets_discarded r) ctr in
          match lookup_or_keyerror states' highest with
          | Err e => (r', Err e)
          | Ok _ =>
              match lookup_or_keyerror states' 0 with
              | Err e => (r', Err e)
              | Ok s0 =>
                  let empty_diff :=
                    generate_patch get_matching_blocks (string s0) (string s0) in
                  (r', Ok [mkTI 0 0 (new_num instruction) (new_num instruction)
                             empty_diff])
              end
          end
      end
  | None =>
      (mkReceiver (states r) (highest_received r) total
         (packets_discarded r + 1) (curr_stateno r), Ok [])
  end.

End ReceiverStep.

(** What the receiver relies on: [states[0]] and
    [states[highest_received]] exist (true from import on, since entries
    are only added). *)
Definition receiver_ok (r : Receiver) : Prop :=
  is_Some (states r !! 0) /\ is_Some (states r !! highest_received r).

(* ------------------------------------------------------------------ *)
(** ** [struct] and the datagram codec (datagram.py) *)

(** A byte string ([bytes]): each element is in [0, 256). *)
Definition bytes := list Z.

(** Big-endian encoding of [x] on [w] bytes (of [x mod 256^w]). *)
Fixpoint be_bytes (w : nat) (x : Z) : bytes :=
  match w with
  | O => []
  | S w' => be_bytes w' (Z.shiftr x 8) ++ [Z.land x 255]
  end.

(** Big-endian decoding. *)
Definition from_be (bs : bytes) : Z :=
  fold_left (fun acc b => acc * 256 + b) bs 0.

(** The format characters of [DATAGRAM_FORMAT_STRING = '!QHHh']. *)
Inductive fmt := FQ | FH | Fh.

Definition DATAGRAM_FORMAT_STRING : list fmt := [FQ; FH; FH; Fh].

Definition fmt_size (f : fmt) : nat :=
  match f with FQ => 8 | FH => 2 | Fh => 2 end.

Definition calcsize (fs : list fmt) : nat := sum_list_with fmt_size fs.

(** [struct.pack] of one field; out-of-range values raise [struct.error]. *)
Definition pack_field (f : fmt) (v : Z) : result bytes :=
  match f with
  | FQ => if (0 <=? v) && (v <? 2 ^ 64) then Ok (be_bytes 8 v) else Err StructError
  | FH => if (0 <=? v) && (v <? 2 ^ 16) then Ok (be_bytes 2 v) else Err StructError
  | Fh => if (- 2 ^ 15 <=? v) && (v <? 2 ^ 15) then Ok (be_bytes 2 v)
          else Err StructError
  end.

(** [struct.unpack] of one field from its bytes. *)
Definition unpack_field (f : fmt) (bs : bytes) : Z :=
  match f with
  | FQ | FH => from_be bs
  | Fh => let u := from_be bs in if u <? 2 ^ 15 then u else u - 2 ^ 16
  end.

Fixpoint struct_pack (fs : list fmt) (vs : list Z) : result bytes :=
  match fs, vs with
  | [], [] => Ok []
  | f :: fs', v :: vs' =>
      b <- pack_field f v ;; r <- struct_pack fs' vs' ;; Ok (b ++ r)
  | _, _ => Err StructError
  end.

(** [struct.unpack_from(fs, value, offset=0)]. *)
Fixpoint struct_unpack_from (fs : list fmt) (value : bytes) : result (list Z) :=
  match fs with
  | [] => Ok []
  | f :: fs' =>
      if (fmt_size f <=? length value)%nat then
        r <- struct_unpack_from fs' (skipn (fmt_size f) value) ;;
        Ok (unpack_field f (firstn (fmt_size f) value) :: r)
      else Err StructError
  end.

Record Packet := mkPacket {
  direction : bool;
  pseq : Z;
  ts : Z;
  ts_reply : Z;
  signal_strength_dbm : Z;
  payload : bytes
}.

Definition assert (b : bool) : result unit :=
  if b then Ok tt else Err AssertionError.

(** [Packet.pack]. *)
Definition pack (p : Packet) : result bytes :=
  _ <- assert ((0 <=? pseq p) && (pseq p <? Z.shiftl 1 63)) ;;
  let dir_bit := if direction p then 1 else 0 in
  let nonce := Z.lor (Z.shiftl dir_bit 63) (pseq p) in
  let ts' := Z.land (ts p) 65535 in
  _ <- assert ((0 <=? ts_reply p) && (ts_reply p <=? 65535)) ;;
  _ <- assert ((-127 <=? signal_strength_dbm p) && (signal_strength_dbm p <=? 0)) ;;
  header <- struct_pack DATAGRAM_FORMAT_STRING
              [nonce; ts'; ts_reply p; signal_strength_dbm p] ;;
  Ok (header ++ payload p).

(** [Packet.unpack]. *)
Definition unpack (value : bytes) : result Packet :=
  let header_length := calcsize DATAGRAM_FORMAT_STRING in
  fields <- struct_unpack_from DATAGRAM_FORMAT_STRING value ;;
  match fields with
  | [nonce; ts0; ts_reply0; signal0] =>
      Ok (mkPacket (Z.testbit nonce 63) (Z.land nonce (Z.shiftl 1 63 - 1))
            ts0 ts_reply0 signal0 (skipn header_length value))
  | _ => Err StructError
  end.

(* ------------------------------------------------------------------ *)
(** ** [json.dumps] (default separators, [ensure_ascii=True]) *)

Definition digit_char (d : Z) : ascii := ascii_of_nat (48 + Z.to_nat d).

Fixpoint nat_digits (fuel : nat) (n : Z) (acc : pystr) : pystr :=
  match fuel with
  | O => acc
  | S f =>
      let acc' := digit_char (n mod 10) :: acc in
      if n <? 10 then acc' else nat_digits f (n / 10) acc'
  end.

(** [str(z)] of an integer. *)
Definition int_text (z : Z) : pystr :=
  let digits n := nat_digits (S (Z.to_nat (Z.log2 n))) n [] in
  if z <? 0 then "-"%char :: digits (- z) else digits z.

Definition hex_char (d : Z) : ascii :=
  if d <? 10 then digit_char d else ascii_of_nat (87 + Z.to_nat d).

(** One character of a string literal. *)
Definition escape_char (c : ascii) : pystr :=
  let n := Z.of_nat (nat_of_ascii c) in
  if n =? 34 then ["092"%char; "034"%char]
  else if n =? 92 then lit "\\"
  else if n =? 10 then lit "\n"
  else if n =? 13 then lit "\r"
  else if n =? 9 then lit "\t"
  else if n =? 8 then lit "\b"
  else if n =? 12 then lit "\f"
  else if (32 <=? n) && (n <=? 126) then [c]
  else lit "\u00" ++ [hex_char (n / 16); hex_char (n mod 16)].

Definition quote (s : pystr) : pystr :=
  "034"%char :: flat_map escape_char s ++ ["034"%char].

Definition join_with (sep : pystr) (parts : list pystr) : pystr :=
  match parts with
  | [] => []
  | p :: ps => p ++ flat_map (fun q => sep ++ q) ps
  end.

Fixpoint dumps (v : json) : pystr :=
  match v with
  | JNull => lit "null"
  | JBool true => lit "true"
  | JBool false => lit "false"
  | JInt z => int_text z
  | JStr s => quote s
  | JArr xs => lit "[" ++ join_with (lit ", ") (map dumps xs) ++ lit "]"
  | JObj kvs =>
      lit "{" ++ join_with (lit ", ")
                  (map (fun kv => quote kv.1 ++ lit ": " ++ dumps kv.2) kvs)
      ++ lit "}"
  end.

(** [TransportInstruction.marshall]: [json.dumps(self.__dict__)], where the
    [diff] attribute is the patch text. *)
Definition marshall (t : TransportInstruction) : pystr :=
  dumps (JObj [(lit "old_num", JInt (old_num t));
               (lit "new_num", JInt (new_num t));
               (lit "ack_num", JInt (ack_num t));
               (lit "throwaway_num", JInt (throwaway_num t));
               (lit "diff", JStr (dumps (diff t)))]).

(** [.encode('utf-8')] of an ASCII-only text. *)
Definition encode_ascii (s : pystr) : bytes :=
  map (fun c => Z.of_nat (nat_of_ascii c)) s.

(* ------------------------------------------------------------------ *)
(** ** [Transporter] (transport.py) *)

(** RTO constants ("copied from the lab"). *)
Definition MinRTO : Q := 5 # 100.
Definition G : Q := 1 # 10.
Definition K : Q := 4.
Definition alpha : Q := 1 # 8.
Definition beta : Q := 1 # 4.

Definition address := (pystr * Z)%type.

Record Transporter := mkTransporter {
  tseq : Z;
  last_timestamp : option Z;
  other_addr : option address;
  current_signal_strength : Z;
  remote_signal_strength : Z;
  srtt : option Q;
  rttvar : option Q;
  rto : option Q;
  is_receiver : bool
}.

(** [Transporter(binding_host, binding_port, other_host, other_port,
    is_receiver)] (the socket itself is not modelled). *)
Definition Transporter_init (other : option address) (is_receiver : bool)
  : Transporter :=
  mkTransporter 0 None other (-50) (-50) None None None is_receiver.

(** [_time_to_int] for a clock reading [ms = int(1000 * time.time())]. *)
Definition time_to_int (ms : Z) : Z := Z.land ms 65535.

(** Python's [x or y] on an optional integer timestamp. *)
Definition or_else (x : option Z) (y : Z) : Z :=
  match x with
  | Some v => if v =? 0 then y else v
  | None => y
  end.

(** [send(old_num, new_num, ack_num, throwaway_num, diff)]. The two calls
    of [_time_to_int] read the clock at [ms1] and [ms2]. Returns the new
    transporter and the packet handed to [sendto] (its bytes are
    [pack] of it). *)
Definition tsend (t : Transporter) (ms1 ms2 : Z) (ti : TransportInstruction)
  : result (Transporter * Packet) :=
  _ <- assert (match other_addr t with Some _ => true | None => false end) ;;
  let payload := encode_ascii (marshall ti) in
  let curr_timestamp := time_to_int ms1 in
  let old_timestamp := or_else (last_timestamp t) (time_to_int ms2) in
  let packet := mkPacket true (tseq t) curr_timestamp old_timestamp
                  (current_signal_strength t) payload in
  let t' := mkTransporter (tseq t + 1) (last_timestamp t) (other_addr t)
              (current_signal_strength t) (remote_signal_strength t)
              (srtt t) (rttvar t) (rto t) (is_receiver t) in
  _ <- pack packet ;;
  Ok (t', packet).

(** The RTO update of [async_recv] for a sample [R] (seconds). *)
Definition rto_update (t : Transporter) (R : Q) : option Q * option Q * option Q :=
  match rttvar t, srtt t with
  | Some var, Some s =>
      let var' := ((1 - beta) * var + beta * Qabs (s - R))%Q in
      let s' := ((1 - alpha) * s + alpha * R)%Q in
      (Some s', Some var', Some (s' + Qmax G (K * var'))%Q)
  | Some var, None =>
      (* [abs(None - R)] raises; unreachable, [srtt] is set with [rttvar] *)
      (None, Some var, rto t)
  | None, _ =>
      let s' := R in
      let var' := (R / 2)%Q in
      (Some s', Some var', Some (s' + Qmax G (K * var'))%Q)
  end.

(** Events at a transporter: a [send] call or a received datagram. *)
Inductive tevent :=
| TSend (ms1 ms2 : Z) (ti : TransportInstruction)
| TRecv (raw : bytes) (addr : address) (ms : Z).

Section Transport.

(** [TransportInstruction.unmarshal(packet.payload.decode('utf-8'))]: the
    UTF-8 decoding, [json.loads] and the dataclass constructor, which
    raise on a payload that is not the UTF-8 JSON text of an object with
    exactly the five fields. The JSON reader is a parameter. *)
Variable unmarshal : bytes -> result TransportInstruction.

(** [async_recv] once the datagram [raw] has arrived from [addr], with the
    clock at [ms]: the transporter after the call and the instruction
    returned or the exception raised. [other_addr] is set before
    [Packet.unpack], so also when [unpack] raises; the instruction is
    decoded after all other updates. *)
Definition async_recv (t : Transporter) (raw : bytes) (addr : address) (ms : Z)
  : Transporter * result TransportInstruction :=
  match unpack raw with
  | Err e =>
      (mkTransporter (tseq t) (last_timestamp t) (Some addr)
         (current_signal_strength t) (remote_signal_strength t)
         (srtt t) (rttvar t) (rto t) (is_receiver t), Err e)
  | Ok packet =>
      let '(s', var', rto') :=
        if is_receiver t then (srtt t, rttvar t, rto t)
        else
          let curr_ms_time := time_to_int ms in
          let R_ms := Z.land (curr_ms_time - ts_reply packet) 65535 in
          rto_update t (inject_Z R_ms / 1000)%Q in
      (mkTransporter (tseq t) (Some (ts packet)) (Some addr)
         (current_signal_strength t) (signal_strength_dbm packet)
         s' var' rto' (is_receiver t),
       unmarshal (payload packet))
  end.

(** Runs the events, collecting the packets sent; an exception ends the
    run. *)
Fixpoint run_transport (t : Transporter) (evs : list tevent)
  : result (Transporter * list Packet) :=
  match evs with
  | [] => Ok (t, [])
  | TSend ms1 ms2 ti :: rest =>
      r <- tsend t ms1 ms2 ti ;;
      let '(t', p) := r in
      r' <- run_transport t' rest ;;
      let '(t'', ps) := r' in Ok (t'', p :: ps)
  | TRecv raw addr ms :: rest =>
      let '(t1, res) := async_recv t raw addr ms in
      _ <- res ;;
      run_transport t1 rest
  end.

End Transport.

(** The [ts] of the last datagram received in [evs], if any. *)
Fixpoint last_received_ts (evs : list tevent) : option Z :=
  match evs with
  | [] => None
  | TSend _ _ _ :: rest => last_received_ts rest
  | TRecv raw _ _ :: rest =>
      match last_received_ts rest with
      | Some x => Some x
      | None => match unpack raw with Ok p => Some (ts p) | Err _ => None end
      end
  end.

(* ------------------------------------------------------------------ *)
(** ** The sending endpoint *)

(** Modelled from the spec: the module-level sender of [sender.py]
    ([init], [send_message], [on_receive], [transport]), which
    [testbed/app/mosh_client.py] and [mosh/tests/test_sender.py] import and
    call but which is not among the sources (the class [Sender] of
    [src/mosh/sender.py] is an older variant: its constructor calls
    [Transporter] with the three-argument signature of the previous
    transport module). Its globals, per the spec: the states map (with
    state 0, the empty string), [next_state_num] starting at 1, the
    inflight tracker and the transporter. *)
Record Sender := mkSender {
  sstates : gmap Z State;
  next_state_num : Z;
  inflight : InflightTracker;
  transport : Transporter
}.

(** Modelled from the spec: the sender after [init(host, port)]. *)
Definition sender_init (peer : address) : Sender :=
  mkSender {[0 := mkState [] 0 None]} 1 tracker_init
    (Transporter_init (Some peer) false).

(** Modelled from the spec: the random draw of the λ policy. λ is the
    fraction [lam_num / lam_den]; the draw [u] is uniform on
    [0 .. lam_den - 1], and [known] is picked when [u < lam_num]. *)
Definition pick_known (lam_num : Z) (u : Z) : bool := u <? lam_num.

(** Modelled from the spec: the staleness test of step 2,
    [now - states[assumed].time_sent < RTO], false when either is unset. *)
Definition within_rto (st : State) (rto_est : option Q) (now : Q) : bool :=
  match time_sent st, rto_est with
  | Some sent_at, Some r => negb (Qle_bool r (now - sent_at))
  | _, _ => false
  end.

Section SendMessage.

Variable get_matching_blocks : pystr -> pystr -> list (nat * nat * nat).

(** Modelled from the spec: [send_message(new_string)], steps 1-5, at time
    [now], with draw [u], λ numerator [lam_num], and the transporter's
    clock readings [ms1], [ms2]. Returns the new sender and the
    instruction sent. *)
Definition send_message (snd : Sender) (new_string : pystr) (now : Q)
  (lam_num u : Z) (ms1 ms2 : Z) : result (Sender * TransportInstruction) :=
  (* 1. *)
  let n := next_state_num snd in
  let new_state := mkState new_string n None in
  let states1 := <[n := new_state]> (sstates snd) in
  (* 2. *)
  let assumed := n - 1 in
  let known := highest_ack (inflight snd) in
  st_assumed <- lookup_or_keyerror states1 assumed ;;
  let old_num :=
    if within_rto st_assumed (rto (transport snd)) now
    then (if pick_known lam_num u then known else assumed)
    else known in
  (* 3. *)
  old_state <- lookup_or_keyerror states1 old_num ;;
  let d := generate_patch get_matching_blocks (string old_state) new_string in
  (* 4. *)
  let floor := Z.min 0 (known - 1) in
  let throwaway :=
    match min_inflight_dependency (inflight snd) with
    | Some m => Z.min floor (m - 1)
    | None => floor
    end in
  (* 5. *)
  let ti := mkTI old_num n known throwaway d in
  sent_r <- tsend (transport snd) ms1 ms2 ti ;;
  let states2 :=
    <[n := mkState new_string n (Some now)]> states1 in
  Ok (mkSender states2 (n + 1) (sent (inflight snd) n (Some old_num)) sent_r.1,
      ti).

End SendMessage.

(** Modelled from the spec: the sender's [on_receive(instruction)]. *)
Definition sender_on_receive (snd : Sender) (instruction : TransportInstruction)
  : result Sender :=
  t' <- acked (inflight snd) (ack_num instruction) ;;
  Ok (mkSender (sstates snd) (next_state_num snd) t' (transport snd)).

(* ------------------------------------------------------------------ *)
(** ** The receive loop and statistics (receiver.py) *)

(** [update_listener]: every instruction delivered by
    [transport.async_recv] is passed to [on_receive] (the optional
    [receive_hook] only appends a line to a log file). Runs the loop over
    the instructions received so far and returns the globals, the
    acknowledgments sent, and [Err e] when an exception [e] raised by
    [on_receive] ended the loop (the [while True] loop has no other exit;
    an exception raised by [async_recv] ends it with the globals as they
    were after the instructions before it). *)
Fixpoint update_listener (get_matching_blocks : pystr -> pystr -> list (nat * nat * nat))
  (r : Receiver) (updates : list TransportInstruction)
  : Receiver * list TransportInstruction * result unit :=
  match updates with
  | [] => (r, [], Ok tt)
  | u :: rest =>
      let '(r1, res1) := on_receive get_matching_blocks r u in
      match res1 with
      | Err e => (r1, [], Err e)
      | Ok acks1 =>
          let '(r2, acks2, res2) := update_listener get_matching_blocks r1 rest in
          (r2, acks1 ++ acks2, res2)
      end
  end.

(** The dict returned by [get_discard_stats()]. *)
Record DiscardStats := mkDiscardStats {
  ds_total_packets_received : Z;
  ds_packets_discarded : Z;
  ds_packets_accepted : Z;
  ds_discard_percentage : Q
}.

(** [get_discard_stats()]; the float division is division on Q. *)
Definition get_discard_stats (r : Receiver) : DiscardStats :=
  let discard_pct :=
    if 0 <? total_packets_received r
    then (100 * inject_Z (packets_discarded r)
          / inject_Z (total_packets_received r))%Q
    else 0%Q in
  mkDiscardStats (total_packets_received r) (packets_discarded r)
    (total_packets_received r - packets_discarded r) discard_pct.

(* ------------------------------------------------------------------ *)
(** ** Received datagrams (transport.py) *)

(** The source address of the last datagram received in [evs], if any. *)
Fixpoint last_received_addr (evs : list tevent) : option address :=
  match evs with
  | [] => None
  | TSend _ _ _ :: rest => last_received_addr rest
  | TRecv _ addr _ :: rest =>
      match last_received_addr rest with
      | Some a => Some a
      | None => Some addr
      end
  end.

(** A [bytes] value: every element is in [0, 256). *)
Definition byte_string (bs : bytes) : bool :=
  forallb (fun b => (0 <=? b) && (b <? 256)) bs.

(** ** Invariants used in the proofs *)

(** Both lists of the tracker are sorted. *)
Definition tracker_sorted (t : InflightTracker) : Prop :=
  StronglySorted Z.le (inflight_state_numbers t) /\
  StronglySorted Z.le (inflight_dependencies t).

(** The entry of [dependencies] for state [k], as a list: [[d]] when
    [k] was sent depending on [d], empty otherwise. *)
Definition dep_of (deps : gmap Z (option Z)) (k : Z) : list Z :=
  match deps !! k with
  | Some (Some d) => [d]
  | _ => []
  end.

(** The dependencies of the states in flight, read from [dependencies]. *)
Definition inflight_deps_of (t : InflightTracker) : list Z :=
  flat_map (dep_of (dependencies t)) (inflight_state_numbers t).

(** The state numbers passed to [sent] along a sequence of calls. *)
Definition sent_numbers (ops : list tracker_op) : list Z :=
  flat_map (fun op => match op with OpSent n _ => [n] | OpAcked _ => [] end) ops.

(** The tracker agrees with its dependency map: [inflight_dependencies]
    is a permutation of the dependencies of the states in flight, those
    states are distinct, each has an entry in [dependencies], and none of
    them is sent again by the calls [rem] still to come. *)
Definition tracker_deps_inv (t : InflightTracker) (rem : list tracker_op) : Prop :=
  Permutation (inflight_dependencies t) (inflight_deps_of t) /\
  List.NoDup (inflight_state_numbers t) /\
  (forall k, List.In k (inflight_state_numbers t) ->
     is_Some (dependencies t !! k) /\ ~ List.In k (sent_numbers rem)).

(** A received datagram is a byte string at least one header long whose
    payload [unmarshal] decodes. *)
Definition recv_valid (unmarshal : bytes -> result TransportInstruction)
  (e : tevent) : Prop :=
  match e with
  | TRecv raw _ _ =>
      byte_string raw = true /\ (14 <= length raw)%nat /\
      exists ti, unmarshal (skipn 14 raw) = Ok ti
  | TSend _ _ _ => True
  end.

(** The RTO estimator's values stay in range. *)
Definition rto_inv (t : Transporter) : Prop :=
  (forall s, srtt t = Some s -> 0 <= s <= 65535 # 1000)%Q /\
  (forall v, rttvar t = Some v -> 0 <= v <= 65535 # 1000)%Q /\
  (forall r, rto t = Some r -> G <= r <= 5 * (65535 # 1000))%Q.

(** The receive loop's invariant. *)
Definition listener_inv (r : Receiver) : Prop :=
  is_Some (states r !! 0) /\ is_Some (states r !! highest_received r) /\
  (forall k s, states r !! k = Some s -> k <= highest_received r) /\
  0 <= packets_discarded r <= total_packets_received r /\
  curr_stateno r = 2 + total_packets_received r - packets_discarded r.

(** ** Concrete inputs *)

Definition bytes_eqb (a b : bytes) : bool :=
  if List.list_eq_dec Z.eq_dec a b then true else false.

(** [TransportInstruction.unmarshal(payload.decode('utf-8'))] on the
    payloads that [send] builds from the instructions [tis]: [json.loads]
    inverts [json.dumps], so the payload [marshall(ti).encode()] decodes
    to [ti] (the round trip the module's own test checks). Any other
    payload is taken to raise; used only on concrete datagrams. *)
Definition unmarshal_known (tis : list TransportInstruction) (pl : bytes)
  : result TransportInstruction :=
  match List.find (fun ti => bytes_eqb (encode_ascii (marshall ti)) pl) tis with
  | Some ti => Ok ti
  | None => Err ValueError
  end.


(** The tracker after states 1, 2, 3 have been sent (2 depending on 1, 3
    on 2) and state 2 has been acknowledged. *)
Definition tracker_after_ack2 : result InflightTracker :=
  run_tracker tracker_init
    [OpSent 1 None; OpSent 2 (Some 1); OpSent 3 (Some 2); OpAcked 2].

(** The instruction of the first state, "abc", built on state 0. *)
Definition first_instruction : TransportInstruction :=
  mkTI 0 1 0 0 (generate_patch prefix_blocks [] (lit "abc")).

(** The bytes of a packet the peer's [send] emits carrying
    [first_instruction], with sequence number [sq], [ts] and [ts_reply]
    as given and signal strength -50. *)
Definition peer_datagram (sq ts_ ts_reply_ : Z) : bytes :=
  match pack (mkPacket true sq ts_ ts_reply_ (-50)
                (encode_ascii (marshall first_instruction))) with
  | Ok bs => bs
  | Err _ => []
  end.

(* ================================================================== *)
(** A sender one [send_message] after [init]: state 1 ([abc]) was sent
    at time 0 and depends on state 0, nothing is acknowledged yet, and the
    transporter holds an RTO estimate of 0.3 s. *)
Definition sender_within_rto : Sender :=
  mkSender {[0 := mkState [] 0 None; 1 := mkState (lit "abc") 1 (Some 0%Q)]} 2
    (sent tracker_init 1 (Some 0))
    (mkTransporter 1 (Some 5) (Some (lit "peer", 6000)) (-50) (-50)
       (Some (1 # 10)) (Some (1 # 20)) (Some (3 # 10)) false).

(** * Proofs *)

(** ** Python helpers *)

Lemma rbind_Ok {A B} (a : A) (k : A -> result B) : rbind (Ok a) k = k a.
Proof. reflexivity. Qed.

Lemma apply_ops_app src acc l1 l2 :
  apply_ops src acc (l1 ++ l2) = (r <- apply_ops src acc l1 ;; apply_ops src r l2).
Proof.
  revert acc; induction l1 as [|op l1 IH]; intros acc; simpl; [reflexivity|].
  destruct (apply_op src acc op); simpl; [apply IH|reflexivity].
Qed.

Lemma py_join_chars s : py_join (chars s) = Ok s.
Proof. induction s as [|c s IH]; simpl; [reflexivity|]. rewrite IH. reflexivity. Qed.

Lemma pystr_eqb_refl s : pystr_eqb s s = true.
Proof. unfold pystr_eqb. destruct (List.list_eq_dec ascii_dec s s); congruence. Qed.

Lemma pystr_eqb_eq s t : pystr_eqb s t = true -> s = t.
Proof. unfold pystr_eqb. destruct (List.list_eq_dec ascii_dec s t); congruence. Qed.

Lemma slice_nat_sub {A} (s : list A) i k :
  (i <= k <= length s)%nat -> slice_nat s i k = sub s i k.
Proof.
  intros Hik. unfold slice_nat, py_slice, sub.
  assert (E1 : (Z.of_nat i <? 0) = false) by (apply Z.ltb_ge; lia).
  assert (E2 : (Z.of_nat k <? 0) = false) by (apply Z.ltb_ge; lia).
  rewrite E1, E2.
  rewrite (Z.min_l (Z.of_nat i)) by lia.
  rewrite (Z.min_l (Z.of_nat k)) by lia.
  f_equal; [|f_equal; lia]. lia.
Qed.

Lemma sub_app {A} (s : list A) j m l :
  (j <= m <= l)%nat -> (l <= length s)%nat -> sub s j m ++ sub s m l = sub s j l.
Proof.
  intros H1 H2. unfold sub.
  replace (l - j)%nat with ((m - j) + (l - m))%nat by lia.
  rewrite <- take_take_drop. f_equal.
  rewrite skipn_skipn. replace (m - j + j)%nat with m by lia. reflexivity.
Qed.

Lemma sub_full {A} (s : list A) j : sub s j (length s) = skipn j s.
Proof. unfold sub. apply firstn_all2. rewrite length_skipn. lia. Qed.

Lemma sub_empty {A} (s : list A) j : sub s j j = [].
Proof. unfold sub. rewrite Nat.sub_diag. reflexivity. Qed.

Lemma chars_app s t : chars (s ++ t) = chars s ++ chars t.
Proof. unfold chars. apply map_app. Qed.

(** ** The diff engine *)

Section Roundtrip.

Variables a b : pystr.

Lemma apply_tagged acc i ai j bj :
  (i <= ai <= length a)%nat -> (j <= bj <= length b)%nat ->
  let tag :=
    if (i <? ai)%nat && (j <? bj)%nat then lit "replace"
    else if (i <? ai)%nat then lit "delete"
    else if (j <? bj)%nat then lit "insert"
    else [] in
  apply_ops a acc
    (flat_map (patch_entry a b)
       (if pystr_eqb tag [] then [] else [(tag, i, ai, j, bj)]))
  = Ok (acc ++ chars (sub b j bj)).
Proof.
  intros Hi Hj tag. subst tag.
  destruct (Nat.ltb_spec i ai), (Nat.ltb_spec j bj); cbn -[slice_nat chars sub].
  - rewrite (slice_nat_sub b) by lia. reflexivity.
  - replace bj with j by lia. rewrite sub_empty, app_nil_r. reflexivity.
  - rewrite (slice_nat_sub b) by lia. reflexivity.
  - replace bj with j by lia. rewrite sub_empty, app_nil_r. reflexivity.
Qed.

Lemma apply_equal acc ai bj n :
  (ai + n <= length a)%nat -> (bj + n <= length b)%nat ->
  sub a ai (ai + n) = sub b bj (bj + n) ->
  apply_ops a acc
    (flat_map (patch_entry a b)
       (if (n =? 0)%nat then [] else [(lit "equal", ai, (ai + n)%nat, bj, (bj + n)%nat)]))
  = Ok (acc ++ chars (sub b bj (bj + n))).
Proof.
  intros Ha Hb Heq. destruct (Nat.eqb_spec n 0) as [->|Hn].
  - rewrite Nat.add_0_r, sub_empty, app_nil_r. reflexivity.
  - cbn -[py_slice chars sub]. rewrite <- Heq.
    change (py_slice a _ _) with (slice_nat a ai (ai + n)).
    rewrite slice_nat_sub by lia. reflexivity.
Qed.

Lemma apply_opcodes blocks : forall i j acc,
  blocks_ok_from a b i j blocks = true ->
  apply_ops a acc (flat_map (patch_entry a b) (opcodes_from i j blocks))
  = Ok (acc ++ chars (skipn j b)).
Proof.
  induction blocks as [|[[ai bj] n] rest IH]; intros i j acc Hok; [discriminate|].
  cbn [blocks_ok_from] in Hok.
  repeat rewrite andb_true_iff in Hok.
  destruct Hok as [[[[[Hi Hj] Ha] Hb] Heq] Hrest].
  apply Nat.leb_le in Hi, Hj, Ha, Hb. apply pystr_eqb_eq in Heq.
  cbn [opcodes_from]. rewrite !flat_map_app, !apply_ops_app.
  rewrite apply_tagged by lia. cbn [rbind].
  rewrite apply_ops_app, apply_equal by assumption. cbn [rbind].
  destruct rest as [|blk rest'].
  - repeat rewrite andb_true_iff in Hrest.
    destruct Hrest as [[Hla Hlb] Hn].
    apply Nat.eqb_eq in Hla, Hlb, Hn. subst.
    cbn. rewrite Nat.add_0_r, sub_empty, sub_full.
    cbn [chars map]. rewrite app_nil_r. reflexivity.
  - apply andb_true_iff in Hrest as [_ Hrest].
    rewrite (IH _ _ _ Hrest).
    rewrite <- !app_assoc, <- !chars_app. f_equal. f_equal. f_equal.
    rewrite <- (sub_full b (bj + n)), sub_app, sub_app, sub_full by lia.
    reflexivity.
Qed.

End Roundtrip.

(** ** C1 *)

(** C1: for all strings [A], [B], applying the patch generated from [A] to
    [B] (through [State.generate_patch], with any matcher meeting difflib's
    matching-block contract) to [A] yields exactly [B]. *)
Theorem patch_roundtrip
  (get_matching_blocks : pystr -> pystr -> list (nat * nat * nat))
  (Hmatcher : forall x y, blocks_ok x y (get_matching_blocks x y) = true)
  (A B : pystr) :
  apply_patch A (generate_patch get_matching_blocks A B) = Ok B.
Proof.
  unfold apply_patch, generate_patch, get_opcodes. cbn [iter_items rbind].
  rewrite (apply_opcodes A B _ 0 0 [] (Hmatcher A B)). cbn [rbind app skipn].
  apply py_join_chars.
Qed.

Ltac solve_bool_conj :=
  repeat (apply andb_true_iff; split);
  try (apply Nat.leb_le; lia);
  try (apply Nat.eqb_eq; lia);
  try (apply Nat.ltb_lt; lia);
  try apply pystr_eqb_refl;
  try reflexivity.

Lemma common_prefix_spec (a b : pystr) :
  let n := common_prefix a b in
  (n <= length a)%nat /\ (n <= length b)%nat /\ firstn n a = firstn n b.
Proof.
  revert b; induction a as [|x a IH]; intros [|y b]; simpl; try (repeat split; lia).
  destruct (ascii_dec x y) as [<-|]; simpl; [|repeat split; lia].
  destruct (IH b) as (H1 & H2 & H3). repeat split; try lia. congruence.
Qed.

Lemma prefix_blocks_ok : forall x y, blocks_ok x y (prefix_blocks x y) = true.
Proof.
  intros a b. unfold blocks_ok, prefix_blocks.
  destruct (common_prefix_spec a b) as (H1 & H2 & H3).
  set (n := common_prefix a b) in *.
  destruct (Nat.eqb_spec n 0) as [Hn|Hn]; cbn [blocks_ok_from].
  - rewrite !Nat.add_0_r, !sub_empty. solve_bool_conj.
  - rewrite !Nat.add_0_r, Nat.add_0_l, !sub_empty.
    replace (sub a 0 n) with (sub b 0 n)
      by (unfold sub; rewrite Nat.sub_0_r, !skipn_O; congruence).
    rewrite pystr_eqb_refl. solve_bool_conj.
Qed.

(** Witness of C1: the round trip for "abcxyz" to "abqz" under the
    longest-common-prefix matcher. *)
Lemma patch_roundtrip_witness :
  (forall x y, blocks_ok x y (prefix_blocks x y) = true) /\
  apply_patch (lit "abcxyz") (generate_patch prefix_blocks (lit "abcxyz") (lit "abqz"))
  = Ok (lit "abqz").
Proof.
  split; [exact prefix_blocks_ok|].
  apply (patch_roundtrip prefix_blocks prefix_blocks_ok).
Defined.

(** ** C9: opcodes with an unknown tag *)

Lemma apply_op_unknown src acc op tag :
  index0 op = Ok tag ->
  is_str tag (lit "equal") = false -> is_str tag (lit "delete") = false ->
  is_str tag (lit "insert") = false -> is_str tag (lit "replace") = false ->
  apply_op src acc op = Ok acc.
Proof.
  intros Hi H1 H2 H3 H4. unfold apply_op. rewrite Hi. cbn [rbind].
  rewrite H1, H2, H3, H4. reflexivity.
Qed.

(** C9 (counterexample): the patch [[["bogus"]]] applied to "abc" does not
    fail: [State.apply] returns the empty string. *)
Lemma unknown_tag_not_rejected :
  apply_patch (lit "abc") (JArr [JArr [JStr (lit "bogus")]]) = Ok [] /\
  (forall e, apply_patch (lit "abc") (JArr [JArr [JStr (lit "bogus")]]) <> Err e).
Proof. split; [reflexivity | intros e; discriminate]. Qed.

(** C9 (amended): an opcode whose tag is none of equal, delete, insert,
    replace is skipped: inserting it anywhere in a patch changes neither
    success nor the resulting string. *)
Theorem unknown_tag_skipped (src : pystr) (ops1 ops2 : list json) (op tag : json)
  (Htag : index0 op = Ok tag)
  (Hknown : is_str tag (lit "equal") = false /\ is_str tag (lit "delete") = false /\
            is_str tag (lit "insert") = false /\ is_str tag (lit "replace") = false) :
  apply_patch src (JArr (ops1 ++ op :: ops2)) = apply_patch src (JArr (ops1 ++ ops2)).
Proof.
  destruct Hknown as (H1 & H2 & H3 & H4).
  unfold apply_patch. cbn [iter_items rbind].
  rewrite !apply_ops_app.
  destruct (apply_ops src [] ops1) as [acc|e]; cbn [rbind]; [|reflexivity].
  cbn [apply_ops]. rewrite (apply_op_unknown src acc op tag Htag H1 H2 H3 H4).
  reflexivity.
Qed.

Lemma unknown_tag_skipped_witness :
  (index0 (JArr [JStr (lit "bogus")]) = Ok (JStr (lit "bogus")) /\
   (is_str (JStr (lit "bogus")) (lit "equal") = false /\
    is_str (JStr (lit "bogus")) (lit "delete") = false /\
    is_str (JStr (lit "bogus")) (lit "insert") = false /\
    is_str (JStr (lit "bogus")) (lit "replace") = false)) /\
  apply_patch (lit "abc")
    (JArr ([JArr [JStr (lit "equal"); JInt 0; JInt 2; JInt 0; JInt 2]]
           ++ JArr [JStr (lit "bogus")] :: []))
  = apply_patch (lit "abc")
      (JArr ([JArr [JStr (lit "equal"); JInt 0; JInt 2; JInt 0; JInt 2]] ++ [])).
Proof.
  assert (Hi : index0 (JArr [JStr (lit "bogus")]) = Ok (JStr (lit "bogus")))
    by reflexivity.
  assert (Hk : is_str (JStr (lit "bogus")) (lit "equal") = false /\
    is_str (JStr (lit "bogus")) (lit "delete") = false /\
    is_str (JStr (lit "bogus")) (lit "insert") = false /\
    is_str (JStr (lit "bogus")) (lit "replace") = false)
    by (repeat split; reflexivity).
  split; [split; [exact Hi | exact Hk]|].
  exact (unknown_tag_skipped (lit "abc") _ [] _ _ Hi Hk).
Defined.

(** ** C3, C4: [InflightTracker.acked] *)

(** C3 (code evaluated at the failing input): from that reachable tracker,
    with state 3 still in flight, [acked(1)] removes state 3 (which is
    greater than 1) and its dependency 2. *)
Lemma acked_removes_greater_state :
  match tracker_after_ack2 with
  | Ok t =>
      inflight_state_numbers t = [3] /\ inflight_dependencies t = [2] /\
      acked t 1 = Ok (mkTracker [] (dependencies t) [] 1)
  | Err _ => False
  end.
Proof. vm_compute. repeat split; reflexivity. Qed.

(** C4 (code evaluated at the failing input): on the same tracker
    ([highest_ack = 2]), [acked(1)] lowers [highest_ack] to 1 and changes
    the inflight state. *)
Lemma acked_below_highest_not_idempotent :
  match tracker_after_ack2 with
  | Ok t =>
      highest_ack t = 2 /\
      (exists t', acked t 1 = Ok t' /\ highest_ack t' = 1 /\
                  inflight_state_numbers t' <> inflight_state_numbers t)
  | Err _ => False
  end.
Proof.
  vm_compute. split; [reflexivity|].
  eexists. split; [reflexivity|]. split; [reflexivity|]. discriminate.
Qed.

(** ** C5, C10: the receiver *)

Lemma lookup_or_keyerror_some {V} (m : gmap Z V) k v :
  m !! k = Some v -> lookup_or_keyerror m k = Ok v.
Proof. intros H. unfold lookup_or_keyerror. rewrite H. reflexivity. Qed.

(** Under the matcher contract the patch from the empty string to itself
    is the empty patch. *)
Lemma empty_patch
  (get_matching_blocks : pystr -> pystr -> list (nat * nat * nat))
  (Hmatcher : forall x y, blocks_ok x y (get_matching_blocks x y) = true) :
  generate_patch get_matching_blocks [] [] = JArr [].
Proof.
  unfold generate_patch, get_opcodes. specialize (Hmatcher [] []).
  unfold blocks_ok in Hmatcher.
  destruct (get_matching_blocks [] []) as [|[[ai bj] n] rest]; [discriminate|].
  cbn [blocks_ok_from length] in Hmatcher.
  repeat rewrite andb_true_iff in Hmatcher.
  destruct Hmatcher as [[[[[_ _] Ha] Hb] _] Hrest].
  apply Nat.leb_le in Ha, Hb.
  destruct rest as [|blk rest].
  - assert (ai = 0%nat) by lia. assert (bj = 0%nat) by lia.
    repeat rewrite andb_true_iff in Hrest. destruct Hrest as [_ Hn].
    apply Nat.eqb_eq in Hn. subst. reflexivity.
  - apply andb_true_iff in Hrest as [Hn _]. apply Nat.ltb_lt in Hn. lia.
Qed.

(** C5 (counterexample): state 0 is stored, but [State.apply] raises
    [ValueError] on the diff [[["replace"]]] ([*_, _, new_chunk =
    op[-2:]] needs two items). The exception leaves [on_receive] after
    [total_packets_received] was incremented: nothing is stored under
    [new_num], [packets_discarded] is unchanged and no acknowledgment is
    sent. *)
Lemma on_receive_apply_error_counted :
  on_receive prefix_blocks receiver_init
    (mkTI 0 1 0 0 (JArr [JArr [JStr (lit "replace")]]))
  = (mkReceiver (states receiver_init) 0 1 0 (curr_stateno receiver_init),
     Err ValueError) /\
  states receiver_init !! 0 <> None /\ states receiver_init !! 1 = None.
Proof. split; [reflexivity|]. split; [discriminate|reflexivity]. Qed.

(** C5 (amended): one call of [on_receive]. The packet counter always
    grows by one. When [old_num] is stored and [State.apply] accepts the
    diff, the result is stored under [new_num], [highest_received] becomes
    [max(highest_received, new_num)], [packets_discarded] is unchanged and
    exactly one acknowledgment [(0, 0, new_num, new_num, empty_diff)] is
    sent, [empty_diff] being the empty patch while [states[0]] is the
    empty string. When [State.apply] raises on the diff, the exception
    propagates with only the counter incremented: nothing is stored,
    nothing is discarded or sent. When [old_num] is not stored,
    [packets_discarded] grows by one, nothing else changes and nothing is
    sent. *)
Theorem on_receive_spec
  (get_matching_blocks : pystr -> pystr -> list (nat * nat * nat))
  (Hmatcher : forall x y, blocks_ok x y (get_matching_blocks x y) = true)
  (r : Receiver) (ins : TransportInstruction) (Hok : receiver_ok r) :
  match states r !! old_num ins with
  | None =>
      on_receive get_matching_blocks r ins =
        (mkReceiver (states r) (highest_received r)
           (total_packets_received r + 1) (packets_discarded r + 1)
           (curr_stateno r), Ok [])
  | Some old_state =>
      match apply_patch (string old_state) (diff ins) with
      | Ok new_string =>
          exists new_state empty_diff,
            on_receive get_matching_blocks r ins =
              (mkReceiver (<[new_num ins := new_state]> (states r))
                 (Z.max (highest_received r) (new_num ins))
                 (total_packets_received r + 1) (packets_discarded r)
                 (curr_stateno r + 1),
               Ok [mkTI 0 0 (new_num ins) (new_num ins) empty_diff]) /\
            string new_state = new_string /\
            (new_num ins <> 0 ->
             (exists s0, states r !! 0 = Some s0 /\ string s0 = []) ->
             empty_diff = JArr [])
      | Err e =>
          on_receive get_matching_blocks r ins =
            (mkReceiver (states r) (highest_received r)
               (total_packets_received r + 1) (packets_discarded r)
               (curr_stateno r), Err e)
      end
  end.
Proof.
  destruct Hok as [[v0 H0] [vh Hh]].
  destruct (states r !! old_num ins) as [old_state|] eqn:Hold.
  - destruct (apply_patch (string old_state) (diff ins)) as [new_string|e]
      eqn:Happ.
    + unfold on_receive. rewrite Hold. unfold State_apply. rewrite Happ.
      cbn [rbind new_State].
      set (st := mkState new_string (curr_stateno r) None).
      assert (Hhi : exists v,
        <[new_num ins := st]> (states r) !! Z.max (highest_received r) (new_num ins)
        = Some v).
      { destruct (decide (Z.max (highest_received r) (new_num ins) = new_num ins)) as [E|E].
        - rewrite E, lookup_insert_eq. eauto.
        - rewrite lookup_insert_ne by congruence.
          replace (Z.max (highest_received r) (new_num ins)) with (highest_received r)
            by lia. eauto. }
      destruct Hhi as [vh' Hh'].
      rewrite (lookup_or_keyerror_some _ _ _ Hh').
      assert (Hz : exists v, <[new_num ins := st]> (states r) !! 0 = Some v).
      { destruct (decide (new_num ins = 0)) as [E|E].
        - rewrite E, lookup_insert_eq. eauto.
        - rewrite lookup_insert_ne by congruence. eauto. }
      destruct Hz as [s0' Hs0'].
      rewrite (lookup_or_keyerror_some _ _ _ Hs0').
      eexists st, _. split; [reflexivity|]. split; [reflexivity|].
      intros Hn [s0 [Hs0 Hstr]].
      rewrite lookup_insert_ne in Hs0' by congruence.
      rewrite Hs0 in Hs0'. injection Hs0' as <-. rewrite Hstr.
      apply empty_patch, Hmatcher.
    + unfold on_receive. rewrite Hold. unfold State_apply. rewrite Happ.
      reflexivity.
  - unfold on_receive. rewrite Hold. reflexivity.
Qed.

Lemma on_receive_spec_witness :
  receiver_ok receiver_init /\
  (exists new_state empty_diff,
     on_receive prefix_blocks receiver_init first_instruction =
       (mkReceiver (<[1 := new_state]> (states receiver_init))
          (Z.max 0 1) (0 + 1) 0 (2 + 1),
        Ok [mkTI 0 0 1 1 empty_diff]) /\
     string new_state = lit "abc" /\
     (1 <> 0 ->
      (exists s0, states receiver_init !! 0 = Some s0 /\ string s0 = []) ->
      empty_diff = JArr [])) /\
  on_receive prefix_blocks receiver_init
    (mkTI 0 1 0 0 (JArr [JArr [JStr (lit "replace")]]))
  = (mkReceiver (states receiver_init) 0 (0 + 1) 0 2, Err ValueError).
Proof.
  assert (Hok : receiver_ok receiver_init) by (split; eexists; reflexivity).
  split; [exact Hok|]. split.
  - exact (on_receive_spec prefix_blocks prefix_blocks_ok receiver_init
             first_instruction Hok).
  - exact (on_receive_spec prefix_blocks prefix_blocks_ok receiver_init
             (mkTI 0 1 0 0 (JArr [JArr [JStr (lit "replace")]])) Hok).
Defined.

(** C10: every [State] construction takes its number from the counter
    [State.curr_stateno] and increments it by one; the state the receiver
    stores under [new_num] is numbered with the counter value at its
    construction, so its number is in general not [new_num]: the first
    state received (new_num 1) is numbered 2, since [State(empty string)]
    of [states[0]] took number 1 at import. *)
Theorem receiver_state_numbers :
  (forall s c, num (new_State s c).1 = c /\ (new_State s c).2 = c + 1) /\
  (forall get_matching_blocks r ins old_state r' acks,
     states r !! old_num ins = Some old_state ->
     on_receive get_matching_blocks r ins = (r', Ok acks) ->
     exists st, states r' !! new_num ins = Some st /\
                num st = curr_stateno r /\ curr_stateno r' = curr_stateno r + 1) /\
  match on_receive prefix_blocks receiver_init first_instruction with
  | (r', Ok _) =>
      exists st, states r' !! new_num first_instruction = Some st /\
                 num st = 2 /\ num st <> new_num first_instruction
  | (_, Err _) => False
  end.
Proof.
  split; [intros s c; split; reflexivity|]. split.
  - intros gmb r ins old_state r' acks Hold H.
    unfold on_receive in H. rewrite Hold in H. unfold State_apply in H.
    destruct (apply_patch (string old_state) (diff ins)) as [ns|e];
      cbn [rbind new_State] in H; [|discriminate].
    destruct (lookup_or_keyerror _ (Z.max _ _)); [|discriminate].
    destruct (lookup_or_keyerror _ 0); [|discriminate].
    injection H as <- _. cbn [states curr_stateno].
    rewrite lookup_insert_eq. eexists. split; [reflexivity|]. split; reflexivity.
  - vm_compute. eexists. split; [reflexivity|]. split; [reflexivity|]. discriminate.
Qed.

(** ** C8: the datagram layout *)

Lemma length_be_bytes w x : length (be_bytes w x) = w.
Proof.
  revert x; induction w as [|w IH]; intros x; simpl; [reflexivity|].
  rewrite length_app, IH. simpl. lia.
Qed.

Lemma from_be_acc (l : bytes) (a : Z) :
  fold_left (fun acc b => acc * 256 + b) l a
  = a * 256 ^ Z.of_nat (length l) + from_be l.
Proof.
  unfold from_be. revert a; induction l as [|b l IH]; intros a; simpl.
  - lia.
  - rewrite (IH (a * 256 + b)), (IH (0 * 256 + b)).
    rewrite Nat2Z.inj_succ, Z.pow_succ_r by lia. lia.
Qed.

Lemma from_be_snoc (l : bytes) (b : Z) : from_be (l ++ [b]) = from_be l * 256 + b.
Proof. unfold from_be. rewrite fold_left_app. reflexivity. Qed.

Lemma mod_256_mul x w :
  0 <= w ->
  x mod (2 ^ (8 * w + 8)) = ((x / 256) mod 2 ^ (8 * w)) * 256 + x mod 256.
Proof.
  intros Hw.
  assert (Hp : 0 < 2 ^ (8 * w)) by (apply Z.pow_pos_nonneg; lia).
  replace (2 ^ (8 * w + 8)) with (256 * 2 ^ (8 * w))
    by (rewrite Z.pow_add_r by lia; lia).
  symmetry. apply Z.mod_unique with (q := (x / 256) / 2 ^ (8 * w)).
  - left. split.
    + pose proof (Z.mod_pos_bound (x / 256) (2 ^ (8 * w)) Hp).
      pose proof (Z.mod_pos_bound x 256 ltac:(lia)). lia.
    + pose proof (Z.mod_pos_bound (x / 256) (2 ^ (8 * w)) Hp).
      pose proof (Z.mod_pos_bound x 256 ltac:(lia)). nia.
  - rewrite (Z.div_mod x 256) at 1 by lia.
    rewrite (Z.div_mod (x / 256) (2 ^ (8 * w))) at 1 by lia. ring.
Qed.

Lemma from_be_be_bytes w x : from_be (be_bytes w x) = x mod 2 ^ (8 * Z.of_nat w).
Proof.
  revert x; induction w as [|w IH]; intros x.
  - simpl. rewrite Z.mod_1_r. reflexivity.
  - cbn [be_bytes]. rewrite from_be_snoc, IH.
    rewrite Z.shiftr_div_pow2 by lia.
    change (Z.land x 255) with (Z.land x (Z.ones 8)).
    rewrite Z.land_ones by lia.
    replace (8 * Z.of_nat (S w)) with (8 * Z.of_nat w + 8) by lia.
    rewrite mod_256_mul by lia. reflexivity.
Qed.

Lemma nonce_props (dir : bool) (s : Z) :
  0 <= s < 2 ^ 63 ->
  let nonce := Z.lor (Z.shiftl (if dir then 1 else 0) 63) s in
  nonce = (if dir then 1 else 0) * 2 ^ 63 + s /\
  Z.testbit nonce 63 = dir /\ Z.land nonce (Z.shiftl 1 63 - 1) = s.
Proof.
  intros Hs nonce.
  set (d := if dir then 1 else 0).
  assert (Hd : 0 <= d <= 1) by (subst d; destruct dir; lia).
  assert (Hsh : Z.shiftl d 63 = d * 2 ^ 63) by (apply Z.shiftl_mul_pow2; lia).
  assert (Hland : Z.land (d * 2 ^ 63) s = 0).
  { replace s with (Z.land s (Z.ones 63))
      by (rewrite Z.land_ones by lia; apply Z.mod_small; lia).
    rewrite (Z.land_comm s), Z.land_assoc.
    rewrite (Z.land_ones (d * 2 ^ 63)) by lia.
    rewrite Z.mod_mul by lia. apply Z.land_0_l. }
  assert (Hn : nonce = d * 2 ^ 63 + s).
  { subst nonce. fold d. rewrite Hsh.
    pose proof (Z.add_lor_land (d * 2 ^ 63) s) as E. rewrite Hland in E. lia. }
  split; [exact Hn|]. split.
  - assert (Hb : Z.b2z (Z.testbit nonce 63) = d).
    { rewrite Z.testbit_spec' by lia. rewrite Hn.
      rewrite Z.div_add_l by lia. rewrite Z.div_small by lia.
      rewrite Z.add_0_r. apply Z.mod_small. lia. }
    subst d; destruct dir, (Z.testbit nonce 63); simpl in Hb; congruence.
  - change (Z.shiftl 1 63 - 1) with (Z.ones 63).
    rewrite Z.land_ones by lia. rewrite Hn.
    rewrite Z.add_comm, Z.mod_add by lia. apply Z.mod_small. lia.
Qed.

Lemma unpack_step (f : fmt) (fs : list fmt) (w : nat) (x : Z) (rest : bytes) :
  w = fmt_size f ->
  struct_unpack_from (f :: fs) (be_bytes w x ++ rest)
  = (r <- struct_unpack_from fs rest ;;
     Ok (unpack_field f (be_bytes w x) :: r)).
Proof.
  intros ->. cbn [struct_unpack_from]. rewrite length_app, length_be_bytes.
  rewrite (proj2 (Nat.leb_le _ _)) by lia.
  rewrite take_app_length', drop_app_length' by (rewrite length_be_bytes; reflexivity).
  reflexivity.
Qed.

(** C8 (counterexample): the header is 14 bytes, [signal_strength_dbm]
    being packed as a 16-bit [h]; for the packet of the module's own test
    with payload "a", the byte at offset 13 is 206 (the low byte of -50),
    not the payload. *)
Lemma signal_not_single_byte :
  match pack (mkPacket true 7 10 5 (-50) [97]) with
  | Ok bs =>
      length bs = 15%nat /\ nth 12 bs 0 = 255 /\ nth 13 bs 0 = 206 /\
      skipn 13 bs <> [97]
  | Err _ => False
  end.
Proof. vm_compute. repeat split; discriminate. Qed.

(** C8 (amended): for every packet that [pack] accepts, the bytes are a
    14-byte big-endian header, nonce at 0, [ts] at 8, [ts_reply] at 10 and
    [signal_strength_dbm] as a signed 16-bit integer at 12-13, followed by
    the payload from offset 14; [unpack] reads the same layout back
    ([ts] reduced modulo 2^16). *)
Theorem pack_layout (p : Packet)
  (Hseq : 0 <= pseq p < 2 ^ 63) (Hreply : 0 <= ts_reply p <= 65535)
  (Hsig : -127 <= signal_strength_dbm p <= 0) :
  exists header,
    pack p = Ok (header ++ payload p) /\ length header = 14%nat /\
    skipn 12 header = [Z.land (Z.shiftr (signal_strength_dbm p) 8) 255;
                       Z.land (signal_strength_dbm p) 255] /\
    unpack (header ++ payload p)
    = Ok (mkPacket (direction p) (pseq p) (Z.land (ts p) 65535) (ts_reply p)
            (signal_strength_dbm p) (payload p)).
Proof.
  destruct p as [dir s t tr sig pl]; cbn [pseq ts_reply signal_strength_dbm
    direction ts payload] in *.
  destruct (nonce_props dir s Hseq) as (Hn & Hbit & Hlow).
  set (nonce := Z.lor (Z.shiftl (if dir then 1 else 0) 63) s) in *.
  assert (Hnr : 0 <= nonce < 2 ^ 64) by (rewrite Hn; destruct dir; lia).
  assert (Ht : 0 <= Z.land t 65535 < 2 ^ 16).
  { change 65535 with (Z.ones 16). rewrite Z.land_ones by lia.
    apply Z.mod_pos_bound. lia. }
  exists (be_bytes 8 nonce ++ be_bytes 2 (Z.land t 65535) ++ be_bytes 2 tr
          ++ be_bytes 2 sig).
  split; [|split; [|split]].
  - unfold pack. cbn [pseq ts_reply signal_strength_dbm direction ts payload].
    assert (E1 : (0 <=? s) && (s <? Z.shiftl 1 63) = true).
    { apply andb_true_iff. rewrite Z.leb_le, Z.ltb_lt. change (Z.shiftl 1 63) with (2 ^ 63). lia. }
    assert (E2 : (0 <=? tr) && (tr <=? 65535) = true).
    { apply andb_true_iff. rewrite !Z.leb_le. lia. }
    assert (E3 : (-127 <=? sig) && (sig <=? 0) = true).
    { apply andb_true_iff. rewrite !Z.leb_le. lia. }
    rewrite E1. cbn [assert rbind]. fold nonce. rewrite E2, E3. cbn [assert rbind].
    unfold DATAGRAM_FORMAT_STRING. cbn [struct_pack pack_field].
    assert (F1 : (0 <=? nonce) && (nonce <? 2 ^ 64) = true).
    { apply andb_true_iff. rewrite Z.leb_le, Z.ltb_lt. lia. }
    assert (F2 : (0 <=? Z.land t 65535) && (Z.land t 65535 <? 2 ^ 16) = true).
    { apply andb_true_iff. rewrite Z.leb_le, Z.ltb_lt. lia. }
    assert (F3 : (0 <=? tr) && (tr <? 2 ^ 16) = true).
    { apply andb_true_iff. rewrite Z.leb_le, Z.ltb_lt. lia. }
    assert (F4 : (- 2 ^ 15 <=? sig) && (sig <? 2 ^ 15) = true).
    { apply andb_true_iff. rewrite Z.leb_le, Z.ltb_lt. lia. }
    rewrite F1, F2, F3, F4. cbn [rbind]. rewrite !app_nil_r, !app_assoc.
    reflexivity.
  - rewrite !length_app, !length_be_bytes. reflexivity.
  - reflexivity.
  - unfold unpack. rewrite <- !app_assoc.
    unfold DATAGRAM_FORMAT_STRING.
    rewrite (unpack_step FQ _ 8) by reflexivity. cbn [rbind].
    rewrite (unpack_step FH _ 2) by reflexivity. cbn [rbind].
    rewrite (unpack_step FH _ 2) by reflexivity. cbn [rbind].
    rewrite (unpack_step Fh _ 2) by reflexivity.
    cbn [rbind struct_unpack_from unpack_field].
    rewrite !from_be_be_bytes.
    replace (nonce mod 2 ^ (8 * Z.of_nat 8)) with nonce
      by (symmetry; apply Z.mod_small; exact Hnr).
    replace (Z.land t 65535 mod 2 ^ (8 * Z.of_nat 2)) with (Z.land t 65535)
      by (symmetry; apply Z.mod_small; exact Ht).
    replace (tr mod 2 ^ (8 * Z.of_nat 2)) with tr
      by (symmetry; apply Z.mod_small; lia).
    assert (Hs16 : (if sig mod 2 ^ (8 * Z.of_nat 2) <? 2 ^ 15
                    then sig mod 2 ^ (8 * Z.of_nat 2)
                    else sig mod 2 ^ (8 * Z.of_nat 2) - 2 ^ 16) = sig).
    { change (2 ^ (8 * Z.of_nat 2)) with 65536.
      destruct (Z.eq_dec sig 0) as [->|Hne]; [reflexivity|].
      replace (sig mod 65536) with (sig + 65536)
        by (apply Z.mod_unique with (q := -1); lia).
      destruct (Z.ltb_spec (sig + 65536) (2 ^ 15)); lia. }
    rewrite Hs16, Hbit, Hlow.
    change (calcsize [FQ; FH; FH; Fh]) with 14%nat. rewrite !app_assoc.
    rewrite drop_app_length'; [reflexivity|].
    rewrite !length_app, !length_be_bytes; reflexivity.


Qed.

Lemma pack_layout_witness :
  (0 <= 7 < 2 ^ 63 /\ 0 <= 5 <= 65535 /\ -127 <= -50 <= 0) /\
  exists header,
    pack (mkPacket true 7 10 5 (-50) [97]) = Ok (header ++ [97]) /\
    length header = 14%nat /\
    skipn 12 header = [Z.land (Z.shiftr (-50) 8) 255; Z.land (-50) 255] /\
    unpack (header ++ [97])
    = Ok (mkPacket true 7 (Z.land 10 65535) 5 (-50) [97]).
Proof.
  split; [lia|].
  apply (pack_layout (mkPacket true 7 10 5 (-50) [97])); cbn; lia.
Defined.

(** ** C7: the [ts_reply] field of outgoing packets *)

Lemma tsend_ok (t t1 : Transporter) (ms1 ms2 : Z) (ti : TransportInstruction)
  (p : Packet) :
  tsend t ms1 ms2 ti = Ok (t1, p) ->
  ts_reply p = or_else (last_timestamp t) (time_to_int ms2) /\
  last_timestamp t1 = last_timestamp t.
Proof.
  unfold tsend.
  destruct (assert _); cbn [rbind]; [|discriminate].
  destruct (pack _); cbn [rbind]; [|discriminate].
  intros H. inversion H; subst. cbn. split; reflexivity.
Qed.

Lemma async_recv_ok unmarshal (t t1 : Transporter) (raw : bytes)
  (addr : address) (ms : Z) (ti : TransportInstruction) :
  async_recv unmarshal t raw addr ms = (t1, Ok ti) ->
  exists p, unpack raw = Ok p /\ last_timestamp t1 = Some (ts p).
Proof.
  unfold async_recv.
  destruct (unpack raw) as [p|e]; [|discriminate].
  destruct (if is_receiver t then _ else _) as [[s' var'] rto'].
  intros H. inversion H; subst. exists p. split; reflexivity.
Qed.

Lemma ts_reply_after_events unmarshal (pre : list tevent) (t t' : Transporter)
  (ms1 ms2 : Z) (ti : TransportInstruction) (ps : list Packet) :
  run_transport unmarshal t (pre ++ [TSend ms1 ms2 ti]) = Ok (t', ps) ->
  exists ps0 p, ps = ps0 ++ [p] /\
    ts_reply p =
    or_else (match last_received_ts pre with
             | Some x => Some x
             | None => last_timestamp t
             end) (time_to_int ms2).
Proof.
  revert t ps. induction pre as [|ev pre IH]; intros t ps H.
  - cbn [app run_transport] in H.
    destruct (tsend t ms1 ms2 ti) as [[t1 p]|e] eqn:E; cbn [rbind] in H;
      [|discriminate].
    inversion H; subst. exists [], p. split; [reflexivity|].
    apply (tsend_ok t _ ms1 ms2 ti p E).
  - destruct ev as [a b c|raw addr ms]; cbn [app run_transport] in H.
    + destruct (tsend t a b c) as [[t1 p]|e] eqn:E; cbn [rbind] in H;
        [|discriminate].
      destruct (run_transport unmarshal t1 (pre ++ [TSend ms1 ms2 ti]))
        as [[t2 ps2]|e] eqn:E2; cbn [rbind] in H; [|discriminate].
      inversion H; subst.
      destruct (IH t1 ps2 E2) as (ps0 & p' & -> & Hp').
      exists (p :: ps0), p'. split; [reflexivity|].
      cbn [last_received_ts]. rewrite Hp'.
      destruct (tsend_ok t t1 a b c p E) as [_ ->]. reflexivity.
    + destruct (async_recv unmarshal t raw addr ms) as [t1 [ti1|e]] eqn:E;
        cbn [rbind] in H; [|discriminate].
      destruct (IH t1 ps H) as (ps0 & p' & -> & Hp').
      exists ps0, p'. split; [reflexivity|].
      destruct (async_recv_ok unmarshal t t1 raw addr ms ti1 E) as (pk & Hu & Hl).
      cbn [last_received_ts]. rewrite Hp', Hl, Hu.
      destruct (last_received_ts pre); reflexivity.
Qed.

(** C7 (counterexample): a fresh transporter that has received nothing
    sends, as its first packet, [ts_reply] equal to the 16-bit clock (here
    1234 ms), not 0. *)
Lemma ts_reply_not_zero_before_receipt :
  exists t' p,
    run_transport (unmarshal_known [first_instruction])
      (Transporter_init (Some (lit "peer", 6000)) false)
      [TSend 0 1234 first_instruction] = Ok (t', [p]) /\
    ts_reply p = 1234 /\ ts_reply p <> 0.
Proof.
  vm_compute. eexists _, _. split; [reflexivity|]. split; [reflexivity|].
  discriminate.
Qed.

(** C7 (amended): for a transporter started by [Transporter_init], the
    last packet sent after the events [pre] carries as [ts_reply] the
    sender's own 16-bit clock [ms2 & 0xFFFF] when nothing has been received
    in [pre], and otherwise the [ts] of the most recently received packet
    when that [ts] is not 0. *)
Theorem ts_reply_of_send unmarshal (other : option address) (b : bool)
  (pre : list tevent) (ms1 ms2 : Z) (ti : TransportInstruction)
  (t' : Transporter) (ps : list Packet) :
  run_transport unmarshal (Transporter_init other b) (pre ++ [TSend ms1 ms2 ti])
  = Ok (t', ps) ->
  exists ps0 p, ps = ps0 ++ [p] /\
    match last_received_ts pre with
    | None => ts_reply p = time_to_int ms2
    | Some x => x <> 0 -> ts_reply p = x
    end.
Proof.
  intros H.
  destruct (ts_reply_after_events unmarshal pre _ t' ms1 ms2 ti ps H)
    as (ps0 & p & Hps & Hp).
  exists ps0, p. split; [exact Hps|]. rewrite Hp.
  destruct (last_received_ts pre) as [x|]; [|reflexivity].
  intros Hx. cbn. rewrite (proj2 (Z.eqb_neq x 0) Hx). reflexivity.
Qed.

Lemma ts_reply_of_send_witness :
  exists t' ps,
    run_transport (unmarshal_known [first_instruction])
      (Transporter_init (Some (lit "peer", 6000)) false)
      ([TRecv (peer_datagram 0 777 0) (lit "peer", 6000) 900]
       ++ [TSend 1000 1000 first_instruction]) = Ok (t', ps) /\
    exists ps0 p, ps = ps0 ++ [p] /\ (777 <> 0 -> ts_reply p = 777).
Proof.
  eexists _, _. split; [vm_compute; reflexivity|].
  eapply (ts_reply_of_send (unmarshal_known [first_instruction])
           (Some (lit "peer", 6000)) false
           [TRecv (peer_datagram 0 777 0) (lit "peer", 6000) 900]
           1000 1000 first_instruction).
  vm_compute. reflexivity.
Defined.

(** ** C2 and C6: the instruction built by [send_message] *)

Lemma within_rto_spec (st : State) (rto_est : option Q) (now : Q) :
  within_rto st rto_est now = true <->
  exists sent_at r, time_sent st = Some sent_at /\ rto_est = Some r /\
                    (now - sent_at < r)%Q.
Proof.
  unfold within_rto. split.
  - destruct (time_sent st) as [sent_at|]; destruct rto_est as [r|];
      try discriminate.
    intros H. exists sent_at, r. split; [reflexivity|]. split; [reflexivity|].
    apply Qnot_le_lt. intros Hle.
    apply Qle_bool_iff in Hle. rewrite Hle in H. discriminate.
  - intros (sent_at & r & -> & -> & Hlt).
    destruct (Qle_bool r (now - sent_at)) eqn:E; [|reflexivity].
    apply Qle_bool_iff in E. exfalso. apply (Qlt_not_le _ _ Hlt E).
Qed.

Lemma count_pick_known (num : Z) (n : nat) :
  0 <= num ->
  length (List.filter (pick_known num) (map Z.of_nat (seq 0 n)))
  = Nat.min n (Z.to_nat num).
Proof.
  intros Hnum. induction n as [|n IH]; [reflexivity|].
  rewrite seq_S, map_app, List.filter_app, length_app, IH.
  cbn [map List.filter]. unfold pick_known.
  destruct (Z.ltb_spec (Z.of_nat (0 + n)) num); cbn [length]; lia.
Qed.

(** The run of [send_message] once the assumed state is known to exist. *)
Lemma send_message_unfold gmb (snd : Sender) (s : pystr) (now : Q)
  (num u ms1 ms2 : Z) (sa : State) (snd' : Sender)
  (ins : TransportInstruction) :
  sstates snd !! (next_state_num snd - 1) = Some sa ->
  send_message gmb snd s now num u ms1 ms2 = Ok (snd', ins) ->
  let known := highest_ack (inflight snd) in
  old_num ins = (if within_rto sa (rto (transport snd)) now
                 then (if pick_known num u then known
                       else next_state_num snd - 1)
                 else known) /\
  throwaway_num ins =
    match min_inflight_dependency (inflight snd) with
    | Some m => Z.min (Z.min 0 (known - 1)) (m - 1)
    | None => Z.min 0 (known - 1)
    end.
Proof.
  intros Hsa H known. unfold send_message in H.
  rewrite (lookup_or_keyerror_some _ _ sa) in H
    by (rewrite lookup_insert_ne by lia; exact Hsa).
  cbn [rbind] in H.
  match type of H with
  | context [lookup_or_keyerror ?m ?k] =>
      destruct (lookup_or_keyerror m k) as [ost|e]; cbn [rbind] in H;
        [|discriminate]
  end.
  match type of H with
  | context [tsend ?t ?a ?b ?c] =>
      destruct (tsend t a b c) as [r|e]; cbn [rbind] in H; [|discriminate]
  end.
  inversion H; subst. cbn [old_num throwaway_num]. split; reflexivity.
Qed.

(** C2: let [n] be the new state number, [assumed = n - 1] and [known] the
    tracker's [highest_ack]. When the assumed state's [time_sent] is set, an
    RTO estimate exists and [now - time_sent < RTO], the instruction sent
    has [old_num = known] if the draw [u] picks [known] and [assumed]
    otherwise; in every other case [old_num = known]. With λ = num/den and
    [u] uniform on [0 .. den - 1], exactly [num] of the [den] draws pick
    [known], i.e. [known] is picked with probability λ. *)
Theorem send_message_old_num gmb (snd : Sender) (s : pystr) (now : Q)
  (num den ms1 ms2 : Z) (sa : State)
  (Hsa : sstates snd !! (next_state_num snd - 1) = Some sa) :
  (forall u snd' ins,
     send_message gmb snd s now num u ms1 ms2 = Ok (snd', ins) ->
     ((exists sent_at r, time_sent sa = Some sent_at /\
                         rto (transport snd) = Some r /\
                         (now - sent_at < r)%Q) ->
      old_num ins = (if pick_known num u then highest_ack (inflight snd)
                     else next_state_num snd - 1)) /\
     (~ (exists sent_at r, time_sent sa = Some sent_at /\
                           rto (transport snd) = Some r /\
                           (now - sent_at < r)%Q) ->
      old_num ins = highest_ack (inflight snd))) /\
  (0 <= num <= den ->
   length (List.filter (pick_known num) (map Z.of_nat (seq 0 (Z.to_nat den))))
   = Z.to_nat num).
Proof.
  split.
  - intros u snd' ins H.
    destruct (send_message_unfold gmb snd s now num u ms1 ms2 sa snd' ins Hsa H)
      as [Hold _].
    rewrite Hold. split.
    + intros Hw. apply within_rto_spec in Hw. rewrite Hw. reflexivity.
    + intros Hw. destruct (within_rto sa (rto (transport snd)) now) eqn:E.
      * exfalso. apply Hw. apply within_rto_spec. exact E.
      * reflexivity.
  - intros Hr. rewrite count_pick_known by lia. lia.
Qed.

Lemma send_message_old_num_witness :
  within_rto (mkState (lit "abc") 1 (Some 0%Q))
    (rto (transport sender_within_rto)) (1 # 10) = true /\
  highest_ack (inflight sender_within_rto)
    <> next_state_num sender_within_rto - 1 /\
  (exists snd' ins,
     send_message prefix_blocks sender_within_rto (lit "abcd") (1 # 10) 1 0 0 0
     = Ok (snd', ins) /\
     old_num ins = highest_ack (inflight sender_within_rto)) /\
  (exists snd' ins,
     send_message prefix_blocks sender_within_rto (lit "abcd") (1 # 10) 1 3 0 0
     = Ok (snd', ins) /\
     old_num ins = next_state_num sender_within_rto - 1) /\
  length (List.filter (pick_known 1) (map Z.of_nat (seq 0 (Z.to_nat 4))))
  = Z.to_nat 1.
Proof.
  assert (Hsa : sstates sender_within_rto !! (next_state_num sender_within_rto - 1)
                = Some (mkState (lit "abc") 1 (Some 0%Q)))
    by (vm_compute; reflexivity).
  destruct (send_message_old_num prefix_blocks sender_within_rto (lit "abcd")
              (1 # 10) 1 4 0 0 _ Hsa) as [Hrun Hcount].
  assert (Hw : exists sent_at r,
            time_sent (mkState (lit "abc") 1 (Some 0%Q)) = Some sent_at /\
            rto (transport sender_within_rto) = Some r /\
            ((1 # 10) - sent_at < r)%Q).
  { exists 0%Q, (3 # 10). split; [reflexivity|]. split; [reflexivity|].
    vm_compute. reflexivity. }
  split; [vm_compute; reflexivity|].
  split; [vm_compute; discriminate|].
  split; [|split; [|apply Hcount; lia]].
  - destruct (send_message prefix_blocks sender_within_rto (lit "abcd")
                (1 # 10) 1 0 0 0) as [[snd' ins]|e] eqn:E;
      [|vm_compute in E; discriminate].
    exists snd', ins. split; [reflexivity|].
    destruct (Hrun 0 snd' ins E) as [Hin _]. rewrite (Hin Hw). reflexivity.
  - destruct (send_message prefix_blocks sender_within_rto (lit "abcd")
                (1 # 10) 1 3 0 0) as [[snd' ins]|e] eqn:E;
      [|vm_compute in E; discriminate].
    exists snd', ins. split; [reflexivity|].
    destruct (Hrun 3 snd' ins E) as [Hin _]. rewrite (Hin Hw). reflexivity.
Defined.

(** C6: every instruction sent by [send_message] carries
    [throwaway_num = min(0, known - 1, min_inflight_dep - 1)], the last term
    left out when no dependency is inflight; in particular
    [throwaway_num <= 0] and [throwaway_num <= known - 1]. *)
Theorem send_message_throwaway gmb (snd : Sender) (s : pystr) (now : Q)
  (num u ms1 ms2 : Z) (snd' : Sender) (ins : TransportInstruction)
  (H : send_message gmb snd s now num u ms1 ms2 = Ok (snd', ins)) :
  throwaway_num ins =
    match min_inflight_dependency (inflight snd) with
    | Some m => Z.min (Z.min 0 (highest_ack (inflight snd) - 1)) (m - 1)
    | None => Z.min 0 (highest_ack (inflight snd) - 1)
    end /\
  throwaway_num ins <= 0 /\
  throwaway_num ins <= highest_ack (inflight snd) - 1 /\
  (forall m, min_inflight_dependency (inflight snd) = Some m ->
             throwaway_num ins <= m - 1).
Proof.
  assert (Hsa : exists sa, sstates snd !! (next_state_num snd - 1) = Some sa).
  { unfold send_message in H.
    destruct (sstates snd !! (next_state_num snd - 1)) as [sa|] eqn:E;
      [eexists; reflexivity|].
    unfold lookup_or_keyerror in H.
    rewrite lookup_insert_ne in H by lia. rewrite E in H. discriminate. }
  destruct Hsa as [sa Hsa].
  destruct (send_message_unfold gmb snd s now num u ms1 ms2 sa snd' ins Hsa H)
    as [_ Ht].
  rewrite Ht.
  destruct (min_inflight_dependency (inflight snd)) as [m|];
    repeat split; intros; try congruence; try lia.
  match goal with Hm : Some _ = Some _ |- _ => injection Hm as <- end. lia.
Qed.

Lemma send_message_throwaway_witness :
  exists snd' ins,
    send_message prefix_blocks (sender_init (lit "peer", 6000)) (lit "abc")
      0 1 0 0 0 = Ok (snd', ins) /\
    throwaway_num ins = -1.
Proof.
  eexists _, _. split; [vm_compute; reflexivity|].
  edestruct (send_message_throwaway prefix_blocks
               (sender_init (lit "peer", 6000)) (lit "abc") 0 1 0 0 0)
    as [Ht _]; [vm_compute; reflexivity|].
  rewrite Ht. reflexivity.
Defined.

(* ================================================================== *)
(** * Further properties of the code *)

(** ** [State.apply]: patches compose *)

Lemma apply_op_acc src acc op :
  apply_op src acc op = (r <- apply_op src [] op ;; Ok (acc ++ r)).
Proof.
  unfold apply_op.
  destruct (index0 op) as [tag|e]; cbn [rbind]; [|reflexivity].
  repeat (match goal with
          | |- context [if ?c then _ else _] => destruct c
          | |- context [match ?x with _ => _ end] => destruct x
  end; cbn [rbind app]); rewrite ?app_nil_r; try reflexivity.
  all: repeat (match goal with |- context [rbind ?m _] => destruct m end;
               cbn [rbind]); reflexivity.
Qed.

Lemma apply_ops_acc src acc ops :
  apply_ops src acc ops = (r <- apply_ops src [] ops ;; Ok (acc ++ r)).
Proof.
  revert acc; induction ops as [|op ops IH]; intros acc.
  - cbn. rewrite app_nil_r. reflexivity.
  - cbn [apply_ops]. rewrite (apply_op_acc src acc op).
    destruct (apply_op src [] op) as [a|e]; cbn [rbind]; [|reflexivity].
    rewrite (IH (acc ++ a)), (IH a).
    destruct (apply_ops src [] ops); cbn [rbind]; [|reflexivity].
    rewrite app_assoc. reflexivity.
Qed.

Lemma py_join_app x y :
  py_join (x ++ y) = (a <- py_join x ;; b <- py_join y ;; Ok (a ++ b)).
Proof.
  induction x as [|v x IH].
  - cbn. destruct (py_join y); reflexivity.
  - destruct v; cbn [app py_join]; try reflexivity.
    rewrite IH. destruct (py_join x); cbn [rbind]; [|reflexivity].
    destruct (py_join y); cbn [rbind]; [|reflexivity].
    rewrite app_assoc. reflexivity.
Qed.

(** [State.apply] on the concatenation of two patch lists succeeds exactly
    when both parts succeed on the same state, and its string is the
    concatenation of theirs. *)
Theorem apply_patch_concat (src : pystr) (ops1 ops2 : list json) (r : pystr) :
  apply_patch src (JArr (ops1 ++ ops2)) = Ok r <->
  exists a b, apply_patch src (JArr ops1) = Ok a /\
              apply_patch src (JArr ops2) = Ok b /\ r = a ++ b.
Proof.
  unfold apply_patch. cbn [iter_items rbind].
  rewrite apply_ops_app.
  destruct (apply_ops src [] ops1) as [i1|e]; cbn [rbind];
    [|split; [discriminate|intros (? & ? & ? & _); discriminate]].
  rewrite apply_ops_acc.
  destruct (apply_ops src [] ops2) as [i2|e]; cbn [rbind];
    [|split; [discriminate|intros (? & ? & _ & ? & _); discriminate]].
  rewrite py_join_app.
  destruct (py_join i1) as [a|e]; cbn [rbind];
    [|split; [discriminate|intros (? & ? & ? & _); discriminate]].
  destruct (py_join i2) as [b|e]; cbn [rbind];
    [|split; [discriminate|intros (? & ? & _ & ? & _); discriminate]].
  split.
  - intros H. injection H as <-. exists a, b. auto.
  - intros (a' & b' & Ha & Hb & ->).
    injection Ha as <-. injection Hb as <-. reflexivity.
Qed.

(** ** The datagram codec *)

Lemma unpack_cons_ok (f : fmt) (fs : list fmt) (v : bytes) :
  (fmt_size f <= length v)%nat ->
  struct_unpack_from (f :: fs) v
  = (r <- struct_unpack_from fs (skipn (fmt_size f) v) ;;
     Ok (unpack_field f (firstn (fmt_size f) v) :: r)).
Proof.
  intros H. cbn [struct_unpack_from].
  destruct (Nat.leb_spec (fmt_size f) (length v)); [reflexivity|lia].
Qed.

(** [Packet.unpack] of at least 14 bytes, split into its fields. *)
Lemma unpack_fields (value : bytes) :
  (14 <= length value)%nat ->
  let h1 := firstn 8 value in
  let h2 := firstn 2 (skipn 8 value) in
  let h3 := firstn 2 (skipn 10 value) in
  let h4 := firstn 2 (skipn 12 value) in
  value = h1 ++ h2 ++ h3 ++ h4 ++ skipn 14 value /\
  unpack value
  = Ok (mkPacket (Z.testbit (from_be h1) 63)
          (Z.land (from_be h1) (Z.shiftl 1 63 - 1))
          (from_be h2) (from_be h3) (unpack_field Fh h4) (skipn 14 value)).
Proof.
  intros H h1 h2 h3 h4. subst h1 h2 h3 h4.
  do 14 (destruct value as [|? value]; [cbn in H; lia|]).
  split; reflexivity.
Qed.

(** [Packet.unpack] raises [struct.error] exactly on inputs shorter than
    the 14-byte header; otherwise the payload is everything after the
    header. *)
Theorem unpack_header_length (value : bytes) :
  match unpack value with
  | Ok p => (14 <= length value)%nat /\ payload p = skipn 14 value
  | Err e => e = StructError /\ (length value < 14)%nat
  end.
Proof.
  destruct (Nat.le_gt_cases 14 (length value)) as [H|H].
  - rewrite (proj2 (unpack_fields value H)). split; [exact H|reflexivity].
  - do 14 (destruct value as [|? value]; [split; [reflexivity|cbn; lia]|]).
    cbn in H. lia.
Qed.

Lemma byte_string_app (a b : bytes) :
  byte_string (a ++ b) = byte_string a && byte_string b.
Proof. unfold byte_string. apply forallb_app. Qed.

Lemma byte_string_firstn n (bs : bytes) :
  byte_string bs = true -> byte_string (firstn n bs) = true.
Proof.
  intros H. rewrite <- (firstn_skipn n bs), byte_string_app in H.
  apply andb_true_iff in H. apply H.
Qed.

Lemma byte_string_skipn n (bs : bytes) :
  byte_string bs = true -> byte_string (skipn n bs) = true.
Proof.
  intros H. rewrite <- (firstn_skipn n bs), byte_string_app in H.
  apply andb_true_iff in H. apply H.
Qed.

Lemma from_be_range (bs : bytes) :
  byte_string bs = true -> 0 <= from_be bs < 2 ^ (8 * Z.of_nat (length bs)).
Proof.
  induction bs as [|b bs IH] using rev_ind; intros H.
  - cbn. lia.
  - rewrite byte_string_app in H. apply andb_true_iff in H as [H1 H2].
    cbn in H2. rewrite andb_true_r, andb_true_iff, Z.leb_le, Z.ltb_lt in H2.
    specialize (IH H1). rewrite from_be_snoc, length_app.
    cbn [length]. rewrite Nat2Z.inj_add, Z.mul_add_distr_l, Z.pow_add_r by lia.
    change (2 ^ (8 * Z.of_nat 1)) with 256. nia.
Qed.

Lemma be_bytes_from_be (bs : bytes) :
  byte_string bs = true -> be_bytes (length bs) (from_be bs) = bs.
Proof.
  induction bs as [|b bs IH] using rev_ind; intros H; [reflexivity|].
  rewrite byte_string_app in H. apply andb_true_iff in H as [H1 H2].
  cbn in H2. rewrite andb_true_r, andb_true_iff, Z.leb_le, Z.ltb_lt in H2.
  rewrite length_app, Nat.add_comm. cbn [length Nat.add be_bytes].
  rewrite from_be_snoc.
  replace (Z.shiftr (from_be bs * 256 + b) 8) with (from_be bs).
  2:{ rewrite Z.shiftr_div_pow2 by lia. change (2 ^ 8) with 256.
      apply Z.div_unique with (r := b); lia. }
  replace (Z.land (from_be bs * 256 + b) 255) with b.
  2:{ change 255 with (Z.ones 8). rewrite Z.land_ones by lia.
      change (2 ^ 8) with 256. apply Z.mod_unique with (q := from_be bs); lia. }
  rewrite (IH H1). reflexivity.
Qed.

Lemma be_bytes_mod (w : nat) (x : Z) :
  be_bytes w x = be_bytes w (x mod 2 ^ (8 * Z.of_nat w)).
Proof.
  revert x; induction w as [|w IH]; intros x; [reflexivity|].
  cbn [be_bytes]. rewrite (IH (Z.shiftr x 8)),
    (IH (Z.shiftr (x mod 2 ^ (8 * Z.of_nat (S w))) 8)).
  rewrite !Z.shiftr_div_pow2 by lia. change (2 ^ 8) with 256.
  change 255 with (Z.ones 8). rewrite !Z.land_ones by lia.
  change (2 ^ 8) with 256.
  replace (8 * Z.of_nat (S w)) with (8 * Z.of_nat w + 8) by lia.
  rewrite (mod_256_mul x (Z.of_nat w)) by lia.
  assert (Hm : 0 <= x mod 256 < 256) by (apply Z.mod_pos_bound; lia).
  assert (Hq : 0 <= (x / 256) mod 2 ^ (8 * Z.of_nat w) < 2 ^ (8 * Z.of_nat w))
    by (apply Z.mod_pos_bound; lia).
  replace (((x / 256) mod 2 ^ (8 * Z.of_nat w) * 256 + x mod 256) / 256)
    with ((x / 256) mod 2 ^ (8 * Z.of_nat w))
    by (apply Z.div_unique with (r := x mod 256); lia).
  replace (((x / 256) mod 2 ^ (8 * Z.of_nat w) * 256 + x mod 256) mod 256)
    with (x mod 256)
    by (apply Z.mod_unique with (q := (x / 256) mod 2 ^ (8 * Z.of_nat w)); lia).
  rewrite Z.mod_mod by lia. reflexivity.
Qed.

Lemma unpack_ok_fields (value : bytes) (p : Packet) :
  byte_string value = true -> unpack value = Ok p ->
  exists h1 h2 h3 h4 rest,
    length h1 = 8%nat /\ length h2 = 2%nat /\ length h3 = 2%nat /\
    length h4 = 2%nat /\
    byte_string h1 = true /\ byte_string h2 = true /\ byte_string h3 = true /\
    byte_string h4 = true /\ byte_string rest = true /\
    value = h1 ++ h2 ++ h3 ++ h4 ++ rest /\
    p = mkPacket (Z.testbit (from_be h1) 63)
          (Z.land (from_be h1) (Z.shiftl 1 63 - 1))
          (from_be h2) (from_be h3) (unpack_field Fh h4) rest.
Proof.
  intros Hb Hu.
  pose proof (unpack_header_length value) as Hl. rewrite Hu in Hl.
  destruct Hl as [Hl _].
  destruct (unpack_fields value Hl) as [Hv Hu'].
  rewrite Hu in Hu'. injection Hu' as ->.
  exists (firstn 8 value), (firstn 2 (skipn 8 value)),
    (firstn 2 (skipn 10 value)), (firstn 2 (skipn 12 value)), (skipn 14 value).
  rewrite !length_firstn, !length_skipn.
  repeat split; try lia; try exact Hv;
    repeat first [apply byte_string_firstn | apply byte_string_skipn];
    exact Hb.
Qed.

(** Every packet [Packet.unpack] returns from a byte string has a 63-bit
    [seq], 16-bit unsigned [ts] and [ts_reply], a signed 16-bit
    [signal_strength_dbm] and a byte-string payload. *)
Theorem unpack_ranges (value : bytes) (p : Packet)
  (Hb : byte_string value = true) (Hu : unpack value = Ok p) :
  0 <= pseq p < 2 ^ 63 /\ 0 <= ts p < 2 ^ 16 /\ 0 <= ts_reply p < 2 ^ 16 /\
  - 2 ^ 15 <= signal_strength_dbm p < 2 ^ 15 /\
  byte_string (payload p) = true.
Proof.
  destruct (unpack_ok_fields value p Hb Hu)
    as (h1 & h2 & h3 & h4 & rest & L1 & L2 & L3 & L4 & B1 & B2 & B3 & B4 & B5
        & _ & ->).
  cbn [pseq ts ts_reply signal_strength_dbm payload unpack_field].
  pose proof (from_be_range h2 B2) as R2. pose proof (from_be_range h3 B3) as R3.
  pose proof (from_be_range h4 B4) as R4.
  rewrite L2 in R2. rewrite L3 in R3. rewrite L4 in R4. cbn in R2, R3, R4.
  change (Z.shiftl 1 63 - 1) with (Z.ones 63). rewrite Z.land_ones by lia.
  pose proof (Z.mod_pos_bound (from_be h1) (2 ^ 63)) as R1.
  repeat split; try lia; try exact B5.
  - destruct (Z.ltb_spec (from_be h4) (2 ^ 15)); lia.
  - destruct (Z.ltb_spec (from_be h4) (2 ^ 15)); lia.
Qed.

Lemma unpack_ranges_witness :
  (byte_string [128; 0; 0; 0; 0; 0; 0; 7; 0; 10; 0; 5; 255; 206; 97] = true /\
   unpack [128; 0; 0; 0; 0; 0; 0; 7; 0; 10; 0; 5; 255; 206; 97]
   = Ok (mkPacket true 7 10 5 (-50) [97])) /\
  (0 <= 7 < 2 ^ 63 /\ 0 <= 10 < 2 ^ 16 /\ 0 <= 5 < 2 ^ 16 /\
   - 2 ^ 15 <= -50 < 2 ^ 15 /\ byte_string [97] = true).
Proof.
  split; [split; reflexivity|].
  exact (unpack_ranges [128; 0; 0; 0; 0; 0; 0; 7; 0; 10; 0; 5; 255; 206; 97]
           (mkPacket true 7 10 5 (-50) [97]) eq_refl eq_refl).
Defined.

Lemma nonce_split (n : Z) :
  0 <= n < 2 ^ 64 ->
  Z.lor (Z.shiftl (if Z.testbit n 63 then 1 else 0) 63)
        (Z.land n (Z.shiftl 1 63 - 1)) = n.
Proof.
  intros Hn.
  change (Z.shiftl 1 63 - 1) with (Z.ones 63). rewrite Z.land_ones by lia.
  pose proof (Z.mod_pos_bound n (2 ^ 63)) as Hm.
  destruct (nonce_props (Z.testbit n 63) (n mod 2 ^ 63) ltac:(lia))
    as (Hl & _ & _).
  cbv zeta in Hl. rewrite Hl.
  pose proof (Z.testbit_spec' n 63 ltac:(lia)) as Hb.
  assert (Hq : 0 <= n / 2 ^ 63 < 2) by (split; [apply Z.div_pos; lia|
    apply Z.div_lt_upper_bound; lia]).
  rewrite Z.mod_small in Hb by exact Hq.
  pose proof (Z.div_mod n (2 ^ 63) ltac:(lia)).
  destruct (Z.testbit n 63); cbn in Hb; lia.
Qed.

(** Packing what [Packet.unpack] decoded from a byte string gives the same
    bytes back, whenever the decoded signal strength passes [pack]'s
    range check [-127 <= signal_strength_dbm <= 0]. *)
Theorem pack_unpack (value : bytes) (p : Packet)
  (Hb : byte_string value = true) (Hu : unpack value = Ok p)
  (Hsig : -127 <= signal_strength_dbm p <= 0) :
  pack p = Ok value.
Proof.
  destruct (unpack_ok_fields value p Hb Hu)
    as (h1 & h2 & h3 & h4 & rest & L1 & L2 & L3 & L4 & B1 & B2 & B3 & B4 & B5
        & -> & ->).
  cbn [signal_strength_dbm] in Hsig.
  pose proof (from_be_range h1 B1) as R1. pose proof (from_be_range h2 B2) as R2.
  pose proof (from_be_range h3 B3) as R3. pose proof (from_be_range h4 B4) as R4.
  rewrite L1 in R1. rewrite L2 in R2. rewrite L3 in R3. rewrite L4 in R4.
  cbn in R1, R2, R3, R4.
  set (sig := unpack_field Fh h4) in *.
  assert (Hsm : sig mod 2 ^ 16 = from_be h4).
  { subst sig. cbn [unpack_field].
    destruct (Z.ltb_spec (from_be h4) (2 ^ 15)).
    - apply Z.mod_small. lia.
    - symmetry. apply Z.mod_unique with (q := -1); lia. }
  assert (Hsb : be_bytes 2 sig = h4).
  { rewrite be_bytes_mod. change (8 * Z.of_nat 2) with 16. rewrite Hsm.
    rewrite <- L4. apply be_bytes_from_be, B4. }
  unfold pack. cbn [pseq ts ts_reply signal_strength_dbm direction payload].
  change (Z.shiftl 1 63 - 1) with (Z.ones 63). rewrite Z.land_ones by lia.
  pose proof (Z.mod_pos_bound (from_be h1) (2 ^ 63)) as Rm.
  assert (E1 : (0 <=? from_be h1 mod 2 ^ 63) &&
               (from_be h1 mod 2 ^ 63 <? Z.shiftl 1 63) = true).
  { apply andb_true_iff. rewrite Z.leb_le, Z.ltb_lt.
    change (Z.shiftl 1 63) with (2 ^ 63). lia. }
  assert (E2 : (0 <=? from_be h3) && (from_be h3 <=? 65535) = true).
  { apply andb_true_iff. rewrite !Z.leb_le. lia. }
  assert (E3 : (-127 <=? sig) && (sig <=? 0) = true).
  { apply andb_true_iff. rewrite !Z.leb_le. lia. }
  rewrite E1. cbn [assert rbind]. rewrite E2, E3. cbn [assert rbind].
  rewrite <- Z.land_ones by lia. change (Z.ones 63) with (Z.shiftl 1 63 - 1).
  rewrite nonce_split by lia.
  replace (Z.land (from_be h2) 65535) with (from_be h2).
  2:{ change 65535 with (Z.ones 16). rewrite Z.land_ones by lia.
      symmetry. apply Z.mod_small. lia. }
  unfold DATAGRAM_FORMAT_STRING. cbn [struct_pack pack_field].
  assert (F1 : (0 <=? from_be h1) && (from_be h1 <? 2 ^ 64) = true).
  { apply andb_true_iff. rewrite Z.leb_le, Z.ltb_lt. lia. }
  assert (F2 : (0 <=? from_be h2) && (from_be h2 <? 2 ^ 16) = true).
  { apply andb_true_iff. rewrite Z.leb_le, Z.ltb_lt. lia. }
  assert (F3 : (0 <=? from_be h3) && (from_be h3 <? 2 ^ 16) = true).
  { apply andb_true_iff. rewrite Z.leb_le, Z.ltb_lt. lia. }
  assert (F4 : (- 2 ^ 15 <=? sig) && (sig <? 2 ^ 15) = true).
  { apply andb_true_iff. rewrite Z.leb_le, Z.ltb_lt. lia. }
  rewrite F1, F2, F3, F4. cbn [rbind].
  assert (Hb1 : be_bytes 8 (from_be h1) = h1)
    by (rewrite <- L1 at 1; apply be_bytes_from_be, B1).
  assert (Hb2 : be_bytes 2 (from_be h2) = h2)
    by (rewrite <- L2 at 1; apply be_bytes_from_be, B2).
  assert (Hb3 : be_bytes 2 (from_be h3) = h3)
    by (rewrite <- L3 at 1; apply be_bytes_from_be, B3).
  rewrite Hsb, Hb1, Hb2, Hb3.
  rewrite app_nil_r, <- !app_assoc. reflexivity.
Qed.

Lemma pack_unpack_witness :
  (byte_string [128; 0; 0; 0; 0; 0; 0; 7; 0; 10; 0; 5; 255; 206; 97] = true /\
   unpack [128; 0; 0; 0; 0; 0; 0; 7; 0; 10; 0; 5; 255; 206; 97]
   = Ok (mkPacket true 7 10 5 (-50) [97]) /\ -127 <= -50 <= 0) /\
  pack (mkPacket true 7 10 5 (-50) [97])
  = Ok [128; 0; 0; 0; 0; 0; 0; 7; 0; 10; 0; 5; 255; 206; 97].
Proof.
  split; [split; [reflexivity|split; [reflexivity|lia]]|].
  apply (pack_unpack [128; 0; 0; 0; 0; 0; 0; 7; 0; 10; 0; 5; 255; 206; 97]);
    [reflexivity|reflexivity|cbn; lia].
Defined.

Lemma pack_spec (p : Packet) :
  match pack p with
  | Ok _ => 0 <= pseq p < 2 ^ 63 /\ 0 <= ts_reply p <= 65535 /\
            -127 <= signal_strength_dbm p <= 0
  | Err e => e = AssertionError /\
             ~ (0 <= pseq p < 2 ^ 63 /\ 0 <= ts_reply p <= 65535 /\
                -127 <= signal_strength_dbm p <= 0)
  end.
Proof.
  destruct p as [dir s t tr sig pl]. unfold pack.
  cbn [pseq ts ts_reply signal_strength_dbm direction payload].
  change (Z.shiftl 1 63) with (2 ^ 63).
  destruct ((0 <=? s) && (s <? 2 ^ 63)) eqn:E1; cbn [assert rbind];
    rewrite ?andb_true_iff, ?andb_false_iff, ?Z.leb_le, ?Z.ltb_lt,
      ?Z.leb_gt, ?Z.ltb_ge in E1;
    [|split; [reflexivity|lia]].
  destruct ((0 <=? tr) && (tr <=? 65535)) eqn:E2; cbn [assert rbind];
    rewrite ?andb_true_iff, ?andb_false_iff, ?Z.leb_le, ?Z.leb_gt in E2;
    [|split; [reflexivity|lia]].
  destruct ((-127 <=? sig) && (sig <=? 0)) eqn:E3; cbn [assert rbind];
    rewrite ?andb_true_iff, ?andb_false_iff, ?Z.leb_le, ?Z.leb_gt in E3;
    [|split; [reflexivity|lia]].
  destruct (nonce_props dir s ltac:(lia)) as (Hn & _ & _).
  set (nonce := Z.lor (Z.shiftl (if dir then 1 else 0) 63) s) in *.
  assert (Ht : 0 <= Z.land t 65535 < 2 ^ 16).
  { change 65535 with (Z.ones 16). rewrite Z.land_ones by lia.
    apply Z.mod_pos_bound. lia. }
  unfold DATAGRAM_FORMAT_STRING. cbn [struct_pack pack_field].
  assert (F1 : (0 <=? nonce) && (nonce <? 2 ^ 64) = true).
  { apply andb_true_iff. rewrite Z.leb_le, Z.ltb_lt. destruct dir; lia. }
  assert (F2 : (0 <=? Z.land t 65535) && (Z.land t 65535 <? 2 ^ 16) = true).
  { apply andb_true_iff. rewrite Z.leb_le, Z.ltb_lt. lia. }
  assert (F3 : (0 <=? tr) && (tr <? 2 ^ 16) = true).
  { apply andb_true_iff. rewrite Z.leb_le, Z.ltb_lt. lia. }
  assert (F4 : (- 2 ^ 15 <=? sig) && (sig <? 2 ^ 15) = true).
  { apply andb_true_iff. rewrite Z.leb_le, Z.ltb_lt. lia. }
  rewrite F1, F2, F3, F4. cbn [rbind]. lia.
Qed.

(** [Packet.pack] succeeds exactly when [0 <= seq < 2^63],
    [0 <= ts_reply <= 0xFFFF] and [-127 <= signal_strength_dbm <= 0];
    otherwise it raises [AssertionError] ([ts] is never checked: it is
    reduced to 16 bits). *)
Theorem pack_checks (p : Packet) :
  match pack p with
  | Ok _ => 0 <= pseq p < 2 ^ 63 /\ 0 <= ts_reply p <= 65535 /\
            -127 <= signal_strength_dbm p <= 0
  | Err e => e = AssertionError /\
             ~ (0 <= pseq p < 2 ^ 63 /\ 0 <= ts_reply p <= 65535 /\
                -127 <= signal_strength_dbm p <= 0)
  end.
Proof. exact (pack_spec p). Qed.


(** ** [InflightTracker] *)

Lemma bisect_left_all_less (l : list Z) (x : Z) :
  (forall y, List.In y l -> y < x) -> bisect_left l x = length l.
Proof.
  induction l as [|y l IH]; intros H; [reflexivity|].
  cbn. destruct (Z.ltb_spec y x) as [_|Hge].
  - rewrite IH; [reflexivity|]. intros z Hz. apply H. right. exact Hz.
  - exfalso. specialize (H y (or_introl eq_refl)). lia.
Qed.

Lemma pop_front_too_many (l acc : list Z) :
  pop_front (S (length l)) l acc = Err IndexError.
Proof.
  revert acc; induction l as [|y l IH]; intros acc; [reflexivity|].
  cbn [length pop_front]. apply IH.
Qed.

(** [acked(state_number)] with a [state_number] greater than every state
    in flight (in particular on a tracker with nothing in flight) raises
    [IndexError]: the loop pops one element more than there are. *)
Theorem acked_beyond_inflight_fails (t : InflightTracker) (state_number : Z)
  (H : forall x, List.In x (inflight_state_numbers t) -> x < state_number) :
  acked t state_number = Err IndexError.
Proof.
  unfold acked. rewrite bisect_left_all_less by exact H.
  rewrite pop_front_too_many. reflexivity.
Qed.

Lemma acked_beyond_inflight_fails_witness :
  (forall x, List.In x (inflight_state_numbers (sent (sent tracker_init 1 None) 2 (Some 1))) -> x < 3) /\
  acked (sent (sent tracker_init 1 None) 2 (Some 1)) 3 = Err IndexError.
Proof.
  assert (H : forall x, List.In x (inflight_state_numbers
                 (sent (sent tracker_init 1 None) 2 (Some 1))) -> x < 3).
  { intros x Hx. cbn in Hx. lia. }
  split; [exact H|].
  exact (acked_beyond_inflight_fails _ 3 H).
Defined.

Lemma pop_front_app (pre post acc : list Z) :
  pop_front (length pre) (pre ++ post) acc = Ok (acc ++ pre, post).
Proof.
  revert acc; induction pre as [|y pre IH]; intros acc.
  - cbn. rewrite app_nil_r. reflexivity.
  - cbn [length app pop_front]. rewrite IH, <- app_assoc. reflexivity.
Qed.

Lemma bisect_left_app (pre post : list Z) (x : Z) :
  (forall y, List.In y pre -> y < x) ->
  bisect_left (pre ++ x :: post) x = length pre.
Proof.
  induction pre as [|y pre IH]; intros H.
  - cbn. rewrite Z.ltb_irrefl. reflexivity.
  - cbn. destruct (Z.ltb_spec y x) as [_|Hge].
    + rewrite IH; [reflexivity|]. intros z Hz. apply H. right. exact Hz.
    + exfalso. specialize (H y (or_introl eq_refl)). lia.
Qed.

Lemma split_sorted_at (l : list Z) (x : Z) :
  StronglySorted Z.lt l -> List.In x l ->
  exists pre post, l = pre ++ x :: post /\
    (forall y, List.In y pre -> y < x) /\ (forall y, List.In y post -> x < y).
Proof.
  induction l as [|y l IH]; intros Hs Hin; [destruct Hin|].
  apply StronglySorted_inv in Hs as [Hs Hf].
  rewrite List.Forall_forall in Hf.
  destruct Hin as [->|Hin].
  - exists [], l. split; [reflexivity|]. split; [intros z []|exact Hf].
  - destruct (IH Hs Hin) as (pre & post & -> & Hpre & Hpost).
    exists (y :: pre), post. split; [reflexivity|]. split; [|exact Hpost].
    intros z [<-|Hz]; [|apply Hpre, Hz].
    apply Hf, List.in_or_app. right. left. reflexivity.
Qed.

Lemma filter_all_true (f : Z -> bool) (l : list Z) :
  (forall y, List.In y l -> f y = true) -> List.filter f l = l.
Proof.
  induction l as [|y l IH]; intros H; [reflexivity|].
  cbn. rewrite (H y (or_introl eq_refl)), IH; [reflexivity|].
  intros z Hz. apply H. right. exact Hz.
Qed.

Lemma filter_all_false (f : Z -> bool) (l : list Z) :
  (forall y, List.In y l -> f y = false) -> List.filter f l = [].
Proof.
  induction l as [|y l IH]; intros H; [reflexivity|].
  cbn. rewrite (H y (or_introl eq_refl)). apply IH.
  intros z Hz. apply H. right. exact Hz.
Qed.

(** When the states in flight are strictly increasing and [state_number]
    is one of them, a successful [acked(state_number)] removes exactly the
    states in flight that are [<= state_number], keeps the dependency map,
    and sets [highest_ack] to [state_number]. *)
Theorem acked_inflight (t t' : InflightTracker) (state_number : Z)
  (Hs : StronglySorted Z.lt (inflight_state_numbers t))
  (Hin : List.In state_number (inflight_state_numbers t))
  (Ha : acked t state_number = Ok t') :
  inflight_state_numbers t'
  = List.filter (fun x => state_number <? x) (inflight_state_numbers t) /\
  dependencies t' = dependencies t /\ highest_ack t' = state_number.
Proof.
  destruct (split_sorted_at _ _ Hs Hin) as (pre & post & Hl & Hpre & Hpost).
  unfold acked in Ha. rewrite Hl in Ha |- *.
  rewrite bisect_left_app in Ha by exact Hpre.
  replace (S (length pre)) with (length (pre ++ [state_number])) in Ha
    by (rewrite length_app; cbn; lia).
  replace (pre ++ state_number :: post) with ((pre ++ [state_number]) ++ post)
    in Ha by (rewrite <- app_assoc; reflexivity).
  rewrite pop_front_app in Ha. cbn [rbind app] in Ha.
  destruct (Nat.leb_spec 1 (length (pre ++ [state_number]))) as [_|Hlen];
    [|rewrite length_app in Hlen; cbn in Hlen; lia].
  cbn [rbind] in Ha.
  destruct (drop_dependencies _ _ _) as [d'|e]; cbn [rbind] in Ha;
    [|discriminate].
  injection Ha as <-. cbn [inflight_state_numbers dependencies highest_ack].
  split; [|split; reflexivity].
  rewrite List.filter_app. cbn [List.filter]. rewrite Z.ltb_irrefl.
  rewrite filter_all_false, filter_all_true; [reflexivity| |].
  - intros y Hy. apply Z.ltb_lt, Hpost, Hy.
  - intros y Hy. apply Z.ltb_ge. specialize (Hpre y Hy). lia.
Qed.

Lemma acked_inflight_witness :
  (StronglySorted Z.lt (inflight_state_numbers
     (sent (sent (sent tracker_init 1 None) 2 (Some 1)) 3 (Some 2))) /\
   List.In 2 (inflight_state_numbers
     (sent (sent (sent tracker_init 1 None) 2 (Some 1)) 3 (Some 2))) /\
   acked (sent (sent (sent tracker_init 1 None) 2 (Some 1)) 3 (Some 2)) 2
   = Ok (mkTracker [3] (dependencies
           (sent (sent (sent tracker_init 1 None) 2 (Some 1)) 3 (Some 2)))
           [2] 2)) /\
  inflight_state_numbers (mkTracker [3] (dependencies
           (sent (sent (sent tracker_init 1 None) 2 (Some 1)) 3 (Some 2)))
           [2] 2)
  = List.filter (fun x => 2 <? x) (inflight_state_numbers
      (sent (sent (sent tracker_init 1 None) 2 (Some 1)) 3 (Some 2))).
Proof.
  assert (Hs : StronglySorted Z.lt (inflight_state_numbers
     (sent (sent (sent tracker_init 1 None) 2 (Some 1)) 3 (Some 2)))).
  { cbn. repeat constructor; lia. }
  assert (Hi : List.In 2 (inflight_state_numbers
     (sent (sent (sent tracker_init 1 None) 2 (Some 1)) 3 (Some 2)))).
  { cbn. auto. }
  assert (Ha : acked (sent (sent (sent tracker_init 1 None) 2 (Some 1)) 3 (Some 2)) 2
   = Ok (mkTracker [3] (dependencies
           (sent (sent (sent tracker_init 1 None) 2 (Some 1)) 3 (Some 2)))
           [2] 2)) by reflexivity.
  split; [split; [exact Hs|split; [exact Hi|exact Ha]]|].
  exact (proj1 (acked_inflight _ _ 2 Hs Hi Ha)).
Defined.

Lemma sl_add_in (x y : Z) (l : list Z) :
  List.In y (sl_add x l) <-> x = y \/ List.In y l.
Proof.
  induction l as [|z l IH]; cbn; [tauto|].
  destruct (x <? z); cbn; [tauto|]. rewrite IH. tauto.
Qed.

Lemma sl_add_sorted (x : Z) (l : list Z) :
  StronglySorted Z.le l -> StronglySorted Z.le (sl_add x l).
Proof.
  induction l as [|z l IH]; intros Hs.
  - cbn. repeat constructor.
  - apply StronglySorted_inv in Hs as [Hs Hf].
    cbn. destruct (Z.ltb_spec x z).
    + constructor; [constructor; assumption|].
      constructor; [lia|]. rewrite List.Forall_forall in Hf |- *.
      intros w Hw. specialize (Hf w Hw). lia.
    + constructor; [apply IH, Hs|]. rewrite List.Forall_forall in Hf |- *.
      intros w Hw. apply sl_add_in in Hw as [<-|Hw]; [lia|apply Hf, Hw].
Qed.

Lemma sl_remove_sorted (x : Z) (l r : list Z) :
  StronglySorted Z.le l -> sl_remove x l = Ok r ->
  StronglySorted Z.le r /\ (forall y, List.In y r -> List.In y l).
Proof.
  revert r; induction l as [|z l IH]; intros r Hs Hr; [discriminate|].
  apply StronglySorted_inv in Hs as [Hs Hf].
  cbn in Hr. destruct (z =? x).
  - injection Hr as <-. split; [exact Hs|]. intros y Hy. right. exact Hy.
  - destruct (sl_remove x l) as [r'|e] eqn:E; cbn [rbind] in Hr;
      [|discriminate].
    injection Hr as <-. destruct (IH r' Hs eq_refl) as [Hs' Hsub].
    split.
    + constructor; [exact Hs'|]. rewrite List.Forall_forall in Hf |- *.
      intros w Hw. apply Hf, Hsub, Hw.
    + intros y [<-|Hy]; [left; reflexivity|right; apply Hsub, Hy].
Qed.

Lemma drop_dependencies_sorted deps (all_acked l r : list Z) :
  StronglySorted Z.le l -> drop_dependencies deps all_acked l = Ok r ->
  StronglySorted Z.le r.
Proof.
  revert l; induction all_acked as [|k rest IH]; intros l Hs Hr.
  - injection Hr as <-. exact Hs.
  - cbn in Hr. destruct (deps !! k) as [[x|]|]; [|apply (IH l Hs Hr)|discriminate].
    destruct (sl_remove x l) as [d'|e] eqn:E; cbn [rbind] in Hr; [|discriminate].
    apply (IH d'); [apply (sl_remove_sorted x l d' Hs E)|exact Hr].
Qed.

Lemma pop_front_sorted (k : nat) (l acc acc' rest : list Z) :
  StronglySorted Z.le l -> pop_front k l acc = Ok (acc', rest) ->
  StronglySorted Z.le rest.
Proof.
  revert l acc; induction k as [|k IH]; intros l acc Hs Hp.
  - cbn in Hp. injection Hp as _ <-. exact Hs.
  - destruct l as [|y l]; [discriminate|].
    apply StronglySorted_inv in Hs as [Hs _]. exact (IH l _ Hs Hp).
Qed.

Lemma tracker_step_sorted (t t' : InflightTracker) (op : tracker_op) :
  tracker_sorted t -> tracker_step t op = Ok t' -> tracker_sorted t'.
Proof.
  intros [H1 H2] Hst. destruct op as [n d|n]; cbn in Hst.
  - injection Hst as <-. split; cbn; [apply sl_add_sorted, H1|].
    destruct d; [apply sl_add_sorted|]; exact H2.
  - unfold acked in Hst.
    destruct (pop_front _ _ _) as [[all rest]|e] eqn:E; cbn [rbind] in Hst;
      [|discriminate].
    destruct (1 <=? length all)%nat; cbn [rbind] in Hst; [|discriminate].
    destruct (drop_dependencies _ _ _) as [d'|e] eqn:E2; cbn [rbind] in Hst;
      [|discriminate].
    injection Hst as <-. split; cbn.
    + exact (pop_front_sorted _ _ _ _ _ H1 E).
    + exact (drop_dependencies_sorted _ _ _ _ H2 E2).
Qed.

Lemma run_tracker_sorted (t t' : InflightTracker) (ops : list tracker_op) :
  tracker_sorted t -> run_tracker t ops = Ok t' -> tracker_sorted t'.
Proof.
  revert t; induction ops as [|op ops IH]; intros t Hs Hr.
  - injection Hr as <-. exact Hs.
  - cbn in Hr. destruct (tracker_step t op) as [t1|e] eqn:E; cbn [rbind] in Hr;
      [|discriminate].
    exact (IH t1 (tracker_step_sorted t t1 op Hs E) Hr).
Qed.

Lemma sl_add_perm (x : Z) (l : list Z) : Permutation (sl_add x l) (x :: l).
Proof.
  induction l as [|y l IH]; cbn; [reflexivity|].
  destruct (x <? y); [reflexivity|].
  rewrite IH. apply perm_swap.
Qed.

Lemma sl_remove_perm (x : Z) (l r : list Z) :
  sl_remove x l = Ok r -> Permutation l (x :: r).
Proof.
  revert r; induction l as [|y l IH]; intros r H; [discriminate|].
  cbn in H. destruct (Z.eqb_spec y x) as [->|Hne].
  - injection H as <-. reflexivity.
  - destruct (sl_remove x l) as [r'|e] eqn:E; cbn [rbind] in H; [|discriminate].
    injection H as <-. rewrite (IH r' eq_refl). apply perm_swap.
Qed.

Lemma sl_remove_in (x : Z) (l : list Z) :
  List.In x l -> exists r, sl_remove x l = Ok r.
Proof.
  induction l as [|y l IH]; intros Hin; [destruct Hin|].
  cbn. destruct (Z.eqb_spec y x) as [->|Hne]; [eexists; reflexivity|].
  destruct Hin as [->|Hin]; [congruence|].
  destruct (IH Hin) as [r ->]. cbn [rbind]. eexists; reflexivity.
Qed.

Lemma pop_front_split (k : nat) (l acc acc' rest : list Z) :
  pop_front k l acc = Ok (acc', rest) ->
  exists p, acc' = acc ++ p /\ l = p ++ rest /\ length p = k.
Proof.
  revert l acc; induction k as [|k IH]; intros l acc H.
  - cbn in H. injection H as <- <-. exists []. rewrite app_nil_r. auto.
  - destruct l as [|y l]; [discriminate|]. cbn in H.
    destruct (IH _ _ H) as (p & -> & -> & Hl).
    exists (y :: p). rewrite <- app_assoc. cbn. auto.
Qed.

Lemma pop_front_err (k : nat) (l acc : list Z) (e : pyerr) :
  pop_front k l acc = Err e -> e = IndexError.
Proof.
  revert l acc; induction k as [|k IH]; intros l acc H; [discriminate|].
  destruct l as [|y l]; [injection H as <-; reflexivity|]. exact (IH _ _ H).
Qed.

(** [drop_dependencies] removes, one occurrence each, the dependencies of
    the popped states, and succeeds when they are all present. *)
Lemma drop_dependencies_perm deps (all D X : list Z) :
  Permutation D (flat_map (dep_of deps) all ++ X) ->
  (forall k, List.In k all -> is_Some (deps !! k)) ->
  exists D', drop_dependencies deps all D = Ok D' /\ Permutation D' X.
Proof.
  revert D; induction all as [|k all IH]; intros D Hp Hs.
  - exists D. split; [reflexivity|exact Hp].
  - cbn [drop_dependencies]. cbn [flat_map] in Hp.
    assert (Hall : forall k', List.In k' all -> is_Some (deps !! k'))
      by (intros k' Hk'; apply Hs; right; exact Hk').
    destruct (Hs k (or_introl eq_refl)) as [v Hv].
    unfold dep_of in Hp. rewrite Hv in Hp |- *. destruct v as [x|].
    + assert (Hin : List.In x D)
        by (apply (Permutation_in _ (Permutation_sym Hp)); left; reflexivity).
      destruct (sl_remove_in x D Hin) as [D1 HD1]. rewrite HD1. cbn [rbind].
      apply IH; [|exact Hall].
      apply (Permutation_cons_inv (a := x)).
      rewrite <- (sl_remove_perm x D D1 HD1). exact Hp.
    + apply IH; [exact Hp|exact Hall].
Qed.

Lemma flat_map_dep_of_insert (m : gmap Z (option Z)) (n : Z) (d : option Z)
  (l : list Z) :
  ~ List.In n l ->
  flat_map (dep_of (<[n := d]> m)) l = flat_map (dep_of m) l.
Proof.
  induction l as [|k l IH]; intros Hn; [reflexivity|].
  cbn [flat_map]. unfold dep_of at 1 3.
  rewrite lookup_insert_ne by (intros ->; apply Hn; left; reflexivity).
  rewrite IH; [reflexivity|]. intros Hin. apply Hn. right. exact Hin.
Qed.

Lemma tracker_step_deps (t : InflightTracker) (op : tracker_op)
  (rem : list tracker_op) :
  tracker_deps_inv t (op :: rem) -> List.NoDup (sent_numbers (op :: rem)) ->
  match tracker_step t op with
  | Ok t' => tracker_deps_inv t' rem
  | Err e => e = IndexError
  end.
Proof.
  intros (Hp & Hnd & Hk) Hns. destruct op as [n d|n]; cbn [tracker_step].
  - cbn [sent_numbers flat_map app] in Hns, Hk. fold (sent_numbers rem) in Hns, Hk.
    apply NoDup_cons_iff in Hns as [Hnr Hns].
    assert (Hnl : ~ List.In n (inflight_state_numbers t))
      by (intros Hin; apply (proj2 (Hk n Hin)); left; reflexivity).
    unfold sent, tracker_deps_inv, inflight_deps_of in *.
    cbn [inflight_state_numbers inflight_dependencies dependencies].
    rewrite !sl_add_perm. split; [|split].
    + cbn [flat_map]. rewrite flat_map_dep_of_insert by exact Hnl.
      unfold dep_of at 1. rewrite lookup_insert_eq.
      destruct d as [x|]; cbn [app]; [rewrite sl_add_perm; constructor|]; exact Hp.
    + constructor; assumption.
    + intros k Hin. apply sl_add_in in Hin as [<-|Hin].
      * split; [rewrite lookup_insert_eq; eexists; reflexivity|exact Hnr].
      * destruct (Hk k Hin) as [Hs Hr]. split.
        -- rewrite lookup_insert_ne by (intros ->; contradiction). exact Hs.
        -- intros Hin'. apply Hr. right. exact Hin'.
  - cbn [sent_numbers flat_map app] in Hk. fold (sent_numbers rem) in Hk.
    unfold acked.
    destruct (pop_front _ _ _) as [[all rest]|e] eqn:E; cbn [rbind];
      [|exact (pop_front_err _ _ _ _ E)].
    destruct (pop_front_split _ _ _ _ _ E) as (p & Hall & Hl & Hlen).
    cbn [app] in Hall. subst p.
    destruct (Nat.leb_spec 1 (length all)) as [_|Hlt]; [|lia]. cbn [rbind].
    unfold inflight_deps_of in Hp. rewrite Hl, flat_map_app in Hp.
    destruct (drop_dependencies_perm (dependencies t) all _ _ Hp)
      as (D' & HD & HD').
    { intros k Hin. apply (proj1 (Hk k ltac:(rewrite Hl; apply List.in_or_app; left; exact Hin))). }
    rewrite HD. cbn [rbind].
    unfold tracker_deps_inv, inflight_deps_of.
    cbn [inflight_state_numbers inflight_dependencies dependencies].
    split; [exact HD'|]. split.
    + rewrite Hl in Hnd. exact (NoDup_app_remove_l _ _ Hnd).
    + intros k Hin. apply Hk. rewrite Hl. apply List.in_or_app. right. exact Hin.
Qed.

Lemma run_tracker_deps (t : InflightTracker) (ops : list tracker_op) :
  tracker_deps_inv t ops -> List.NoDup (sent_numbers ops) ->
  match run_tracker t ops with
  | Ok t' => tracker_deps_inv t' []
  | Err e => e = IndexError
  end.
Proof.
  revert t; induction ops as [|op ops IH]; intros t Hi Hn; [exact Hi|].
  cbn [run_tracker]. pose proof (tracker_step_deps t op ops Hi Hn) as Hs.
  destruct (tracker_step t op) as [t1|e]; cbn [rbind]; [|exact Hs].
  apply IH; [exact Hs|].
  destruct op as [n d|n]; cbn [sent_numbers flat_map app] in Hn;
    fold (sent_numbers ops) in Hn; [|exact Hn].
  apply NoDup_cons_iff in Hn as [_ Hn]. exact Hn.
Qed.

(** Along every sequence of [sent] and [acked] calls on a fresh tracker
    that sends no state number twice: the only exception raised is
    [IndexError] (an [acked] beyond the states in flight); otherwise
    [inflight_dependencies] holds, with multiplicity, exactly the
    [depends_on] values recorded in [dependencies] for the states still in
    flight, and [min_inflight_dependency()] returns the least of them, or
    [None] when no state in flight has a dependency. *)
Theorem tracker_dependencies_multiset (ops : list tracker_op)
  (Hnd : List.NoDup (sent_numbers ops)) :
  match run_tracker tracker_init ops with
  | Ok t =>
      Permutation (inflight_dependencies t) (inflight_deps_of t) /\
      match min_inflight_dependency t with
      | Some m => List.In m (inflight_deps_of t) /\
                  forall x, List.In x (inflight_deps_of t) -> m <= x
      | None => inflight_deps_of t = []
      end
  | Err e => e = IndexError
  end.
Proof.
  assert (H0 : tracker_deps_inv tracker_init ops).
  { split; [reflexivity|]. split; [constructor|]. intros k []. }
  pose proof (run_tracker_deps _ _ H0 Hnd) as Hr.
  destruct (run_tracker tracker_init ops) as [t|e] eqn:E; [|exact Hr].
  destruct Hr as (Hp & _ & _). split; [exact Hp|].
  assert (Hs0 : tracker_sorted tracker_init) by (split; cbn; constructor).
  destruct (run_tracker_sorted _ _ _ Hs0 E) as [_ H2].
  unfold min_inflight_dependency.
  destruct (inflight_dependencies t) as [|m l] eqn:Ed; cbn [head].
  - apply Permutation_nil, Hp.
  - apply StronglySorted_inv in H2 as [_ Hf]. rewrite List.Forall_forall in Hf.
    split.
    + apply (Permutation_in _ Hp). left. reflexivity.
    + intros x Hx. apply (Permutation_in _ (Permutation_sym Hp)) in Hx.
      destruct Hx as [<-|Hx]; [lia|apply Hf, Hx].
Qed.

Lemma tracker_dependencies_multiset_witness :
  List.NoDup (sent_numbers
    [OpSent 1 None; OpSent 2 (Some 1); OpSent 3 (Some 2); OpSent 4 (Some 2);
     OpAcked 2]) /\
  run_tracker tracker_init
    [OpSent 1 None; OpSent 2 (Some 1); OpSent 3 (Some 2); OpSent 4 (Some 2);
     OpAcked 2]
  = Ok (mkTracker [3; 4]
          (<[4 := Some 2]> (<[3 := Some 2]> (<[2 := Some 1]> (<[1 := None]> ∅))))
          [2; 2] 2) /\
  inflight_deps_of (mkTracker [3; 4]
          (<[4 := Some 2]> (<[3 := Some 2]> (<[2 := Some 1]> (<[1 := None]> ∅))))
          [2; 2] 2) = [2; 2] /\
  (Permutation [2; 2] [2; 2] /\ (List.In 2 [2; 2] /\ forall x, List.In x [2; 2] -> 2 <= x)).
Proof.
  assert (Hnd : List.NoDup (sent_numbers
    [OpSent 1 None; OpSent 2 (Some 1); OpSent 3 (Some 2); OpSent 4 (Some 2);
     OpAcked 2])).
  { cbn. repeat constructor; cbn; intuition lia. }
  pose proof (tracker_dependencies_multiset _ Hnd) as Hm.
  split; [exact Hnd|]. split; [reflexivity|]. split; [reflexivity|].
  exact Hm.
Defined.

(** ** [Transporter] *)

Lemma tsend_fields (t t1 : Transporter) (ms1 ms2 : Z) (ti : TransportInstruction)
  (p : Packet) :
  tsend t ms1 ms2 ti = Ok (t1, p) ->
  pseq p = tseq t /\ direction p = true /\ tseq t1 = tseq t + 1 /\
  other_addr t1 = other_addr t /\ last_timestamp t1 = last_timestamp t /\
  current_signal_strength t1 = current_signal_strength t /\
  srtt t1 = srtt t /\ rttvar t1 = rttvar t /\ rto t1 = rto t /\
  is_receiver t1 = is_receiver t.
Proof.
  unfold tsend.
  destruct (assert _); cbn [rbind]; [|discriminate].
  destruct (pack _); cbn [rbind]; [|discriminate].
  intros H. inversion H; subst. cbn. repeat split.
Qed.

Lemma async_recv_fields unmarshal (t t1 : Transporter) (raw : bytes)
  (addr : address) (ms : Z) (ti : TransportInstruction) :
  async_recv unmarshal t raw addr ms = (t1, Ok ti) ->
  tseq t1 = tseq t /\ other_addr t1 = Some addr /\
  current_signal_strength t1 = current_signal_strength t /\
  is_receiver t1 = is_receiver t /\
  exists p, unpack raw = Ok p /\ last_timestamp t1 = Some (ts p) /\
    (srtt t1, rttvar t1, rto t1) =
    (if is_receiver t then (srtt t, rttvar t, rto t)
     else rto_update t (inject_Z (Z.land (time_to_int ms - ts_reply p) 65535)
                        / 1000)%Q) /\
    unmarshal (payload p) = Ok ti.
Proof.
  unfold async_recv.
  destruct (unpack raw) as [p|e]; [|discriminate].
  destruct (if is_receiver t then _ else _) as [[s' var'] rto'] eqn:E.
  intros H. injection H as <- Hti. cbn. split; [reflexivity|].
  split; [reflexivity|]. split; [reflexivity|]. split; [reflexivity|].
  exists p. split; [reflexivity|]. split; [reflexivity|].
  split; [exact (eq_sym E)|exact Hti].
Qed.

(** The packets sent along a run carry consecutive sequence numbers
    starting at the transporter's [seq], one per [send] call, all with
    direction bit set; received datagrams do not consume sequence
    numbers. *)
Theorem run_transport_seq unmarshal (t t' : Transporter) (evs : list tevent)
  (ps : list Packet) (H : run_transport unmarshal t evs = Ok (t', ps)) :
  (forall i p, nth_error ps i = Some p ->
     pseq p = tseq t + Z.of_nat i /\ direction p = true) /\
  tseq t' = tseq t + Z.of_nat (length ps) /\
  length ps
  = length (List.filter (fun e => match e with TSend _ _ _ => true
                                          | TRecv _ _ _ => false end) evs).
Proof.
  revert t ps H; induction evs as [|ev evs IH]; intros t ps H.
  - injection H as <- <-. split; [intros [|i] p Hp; discriminate|].
    cbn. split; [lia|reflexivity].
  - destruct ev as [a b c|raw addr ms]; cbn [run_transport] in H.
    + destruct (tsend t a b c) as [[t1 p]|e] eqn:E; cbn [rbind] in H;
        [|discriminate].
      destruct (run_transport unmarshal t1 evs) as [[t2 ps2]|e] eqn:E2;
        cbn [rbind] in H; [|discriminate].
      injection H as <- <-.
      destruct (tsend_fields _ _ _ _ _ _ E) as (Hs & Hd & Ht & _).
      destruct (IH t1 ps2 E2) as (Hn & Ht' & Hl).
      split; [|split].
      * intros [|i] q Hq.
        -- injection Hq as <-. split; [lia|exact Hd].
        -- destruct (Hn i q Hq) as [Hq1 Hq2]. split; [lia|exact Hq2].
      * cbn [length]. lia.
      * cbn. rewrite Hl. reflexivity.
    + destruct (async_recv unmarshal t raw addr ms) as [t1 [ti1|e]] eqn:E;
        cbn [rbind] in H; [|discriminate].
      destruct (async_recv_fields _ _ _ _ _ _ _ E) as (Hs & _).
      destruct (IH t1 ps H) as (Hn & Ht' & Hl).
      split; [|split].
      * intros i q Hq. rewrite <- Hs. apply Hn, Hq.
      * lia.
      * cbn. exact Hl.
Qed.

Lemma run_transport_seq_witness :
  exists t' ps,
    run_transport (unmarshal_known [first_instruction])
      (Transporter_init (Some (lit "peer", 6000)) false)
      [TSend 0 0 first_instruction;
       TRecv (peer_datagram 7 10 5) (lit "peer", 6000) 5;
       TSend 7 7 first_instruction] = Ok (t', ps) /\
    (forall i p, nth_error ps i = Some p ->
       pseq p = 0 + Z.of_nat i /\ direction p = true) /\
    tseq t' = 0 + Z.of_nat (length ps) /\
    length ps = 2%nat.
Proof.
  eexists _, _. split; [vm_compute; reflexivity|].
  apply (run_transport_seq (unmarshal_known [first_instruction])
    (Transporter_init (Some (lit "peer", 6000)) false) _
    [TSend 0 0 first_instruction;
     TRecv (peer_datagram 7 10 5) (lit "peer", 6000) 5;
     TSend 7 7 first_instruction]).
  vm_compute. reflexivity.
Defined.

(** The transporter's peer ([other_addr]) after a run is the source
    address of the last datagram received, or the configured peer when
    nothing was received; a transporter with no configured peer (as
    [receiver.init] creates it) raises [AssertionError] on a [send] made
    before its first datagram arrives. *)
Theorem transport_peer unmarshal (t : Transporter) (evs : list tevent) :
  (forall t' ps, run_transport unmarshal t evs = Ok (t', ps) ->
     other_addr t' = match last_received_addr evs with
                     | Some a => Some a
                     | None => other_addr t
                     end) /\
  (other_addr t = None -> last_received_addr evs = None ->
   forall ms1 ms2 ti rest,
     run_transport unmarshal t (evs ++ TSend ms1 ms2 ti :: rest)
     = Err AssertionError).
Proof.
  split.
  - revert t; induction evs as [|ev evs IH]; intros t t' ps H.
    + injection H as <- <-. reflexivity.
    + destruct ev as [a b c|raw addr ms]; cbn [run_transport] in H.
      * destruct (tsend t a b c) as [[t1 p]|e] eqn:E; cbn [rbind] in H;
          [|discriminate].
        destruct (run_transport unmarshal t1 evs) as [[t2 ps2]|e] eqn:E2;
          cbn [rbind] in H; [|discriminate].
        injection H as <- <-.
        destruct (tsend_fields _ _ _ _ _ _ E) as (_ & _ & _ & Ho & _).
        rewrite (IH t1 t2 ps2 E2), Ho. reflexivity.
      * destruct (async_recv unmarshal t raw addr ms) as [t1 [ti1|e]] eqn:E;
          cbn [rbind] in H; [|discriminate].
        destruct (async_recv_fields _ _ _ _ _ _ _ E) as (_ & Ho & _).
        rewrite (IH t1 t' ps H), Ho. cbn [last_received_addr].
        destruct (last_received_addr evs); reflexivity.
  - intros Hnone. induction evs as [|ev evs IH]; intros Hl ms1 ms2 ti rest.
    + cbn [app run_transport]. unfold tsend. rewrite Hnone. reflexivity.
    + destruct ev as [a b c|raw addr ms].
      * cbn [app run_transport]. unfold tsend. rewrite Hnone. reflexivity.
      * cbn [last_received_addr] in Hl.
        destruct (last_received_addr evs); discriminate.
Qed.

Lemma time_to_int_range (ms : Z) : 0 <= time_to_int ms <= 65535.
Proof.
  unfold time_to_int. change 65535 with (Z.ones 16).
  rewrite Z.land_ones by lia.
  pose proof (Z.mod_pos_bound ms (2 ^ 16) ltac:(lia)). change (Z.ones 16) with 65535.
  lia.
Qed.

Lemma tsend_succeeds (t : Transporter) (ms1 ms2 : Z) (ti : TransportInstruction) :
  other_addr t <> None ->
  (forall v, last_timestamp t = Some v -> 0 <= v <= 65535) ->
  -127 <= current_signal_strength t <= 0 -> 0 <= tseq t < 2 ^ 63 ->
  exists r, tsend t ms1 ms2 ti = Ok r.
Proof.
  intros Ho Hl Hc Hs. unfold tsend.
  destruct (other_addr t) as [a|]; [|congruence]. cbn [assert rbind].
  match goal with |- context [pack ?p] =>
    pose proof (pack_spec p) as Hp; destruct (pack p) end;
    cbn [rbind]; [eexists; reflexivity|].
  exfalso. destruct Hp as [_ Hn]. apply Hn. cbn.
  split; [lia|]. split; [|lia].
  pose proof (time_to_int_range ms2).
  unfold or_else. destruct (last_timestamp t) as [v|]; [|lia].
  specialize (Hl v eq_refl). destruct (v =? 0); lia.
Qed.

Lemma async_recv_succeeds unmarshal (t : Transporter) (raw : bytes)
  (addr : address) (ms : Z) :
  byte_string raw = true -> (14 <= length raw)%nat ->
  (exists ti, unmarshal (skipn 14 raw) = Ok ti) ->
  exists t1 ti, async_recv unmarshal t raw addr ms = (t1, Ok ti) /\
    (forall v, last_timestamp t1 = Some v -> 0 <= v <= 65535).
Proof.
  intros Hb Hl [ti Hti].
  destruct (unpack_fields raw Hl) as [_ Hu].
  destruct (async_recv unmarshal t raw addr ms) as [t1 [ti1|e]] eqn:E.
  - exists t1, ti1. split; [reflexivity|].
    destruct (async_recv_fields _ _ _ _ _ _ _ E)
      as (_ & _ & _ & _ & p & Hp & Hts & _).
    destruct (unpack_ok_fields raw p Hb Hp)
      as (h1 & h2 & h3 & h4 & rest & _ & L2 & _ & _ & _ & B2 & _ & _ & _ & _ & ->).
    intros v Hv. rewrite Hts in Hv. injection Hv as <-. cbn [ts].
    pose proof (from_be_range h2 B2) as R. rewrite L2 in R. cbn in R. lia.
  - exfalso. unfold async_recv in E. rewrite Hu in E.
    destruct (if is_receiver t then _ else _) as [[? ?] ?].
    cbn [payload] in E. rewrite Hti in E. discriminate.
Qed.

Lemma run_transport_total unmarshal (t : Transporter) (evs : list tevent) :
  (forall v, last_timestamp t = Some v -> 0 <= v <= 65535) ->
  -127 <= current_signal_strength t <= 0 -> 0 <= tseq t ->
  tseq t + Z.of_nat (length evs) < 2 ^ 63 ->
  (other_addr t <> None \/
   forall pre ms1 ms2 ti rest, evs = pre ++ TSend ms1 ms2 ti :: rest ->
     last_received_addr pre <> None) ->
  List.Forall (recv_valid unmarshal) evs ->
  exists t' ps, run_transport unmarshal t evs = Ok (t', ps).
Proof.
  revert t; induction evs as [|ev evs IH];
    intros t Hl Hc Hs Hn Hpeer Hv.
  - exists t, []. reflexivity.
  - apply List.Forall_cons_iff in Hv as [Hv1 Hv].
    cbn [length] in Hn.
    destruct ev as [a b c|raw addr ms].
    + assert (Ho : other_addr t <> None).
      { destruct Hpeer as [Ho|Hpre]; [exact Ho|].
        exfalso. apply (Hpre [] a b c evs eq_refl). reflexivity. }
      destruct (tsend_succeeds t a b c Ho Hl Hc ltac:(lia)) as [[t1 p] E].
      destruct (tsend_fields _ _ _ _ _ _ E)
        as (_ & _ & Ht & Ho1 & Hl1 & Hc1 & _).
      destruct (IH t1) as (t2 & ps2 & E2).
      * rewrite Hl1. exact Hl.
      * rewrite Hc1. exact Hc.
      * lia.
      * lia.
      * left. rewrite Ho1. exact Ho.
      * exact Hv.
      * exists t2, (p :: ps2). cbn [run_transport].
        rewrite E. cbn [rbind]. rewrite E2. reflexivity.
    + destruct Hv1 as (Hb & Hlen & Hdec).
      destruct (async_recv_succeeds unmarshal t raw addr ms Hb Hlen Hdec)
        as (t1 & ti1 & E & Hl1).
      destruct (async_recv_fields _ _ _ _ _ _ _ E) as (Ht & Ho1 & Hc1 & _).
      destruct (IH t1) as (t2 & ps2 & E2).
      * exact Hl1.
      * rewrite Hc1. exact Hc.
      * lia.
      * lia.
      * left. rewrite Ho1. discriminate.
      * exact Hv.
      * exists t2, ps2. cbn [run_transport]. rewrite E. cbn [rbind]. exact E2.
Qed.

(** A transporter created by [Transporter(...)] never raises along a run
    (fewer than 2^63 events) in which every received datagram is a byte
    string of at least 14 bytes whose payload
    [TransportInstruction.unmarshal] decodes, and every [send] has a peer:
    either one was configured or a datagram was received before it. In
    particular the [ts_reply] and signal-strength assertions of
    [Packet.pack] never fire on [send], whatever [ts] and signal strength
    the peer's datagrams carry. *)
Theorem transport_never_fails unmarshal (other : option address) (b : bool)
  (evs : list tevent)
  (Hpeer : other <> None \/
           forall pre ms1 ms2 ti rest, evs = pre ++ TSend ms1 ms2 ti :: rest ->
             last_received_addr pre <> None)
  (Hv : List.Forall (recv_valid unmarshal) evs)
  (Hn : Z.of_nat (length evs) < 2 ^ 63) :
  exists t' ps, run_transport unmarshal (Transporter_init other b) evs = Ok (t', ps).
Proof.
  apply run_transport_total; cbn; try lia; [discriminate| exact Hpeer | exact Hv].
Qed.

Lemma transport_never_fails_witness :
  ((None : option address) <> None \/
   forall pre ms1 ms2 ti rest,
     [TRecv (peer_datagram 7 10 5) (lit "peer", 6000) 0;
      TSend 1 1 first_instruction]
     = pre ++ TSend ms1 ms2 ti :: rest ->
     last_received_addr pre <> None) /\
  List.Forall (recv_valid (unmarshal_known [first_instruction]))
    [TRecv (peer_datagram 7 10 5) (lit "peer", 6000) 0;
     TSend 1 1 first_instruction] /\
  Z.of_nat (length
    [TRecv (peer_datagram 7 10 5) (lit "peer", 6000) 0;
     TSend 1 1 first_instruction]) < 2 ^ 63 /\
  exists t' ps,
    run_transport (unmarshal_known [first_instruction])
      (Transporter_init None false)
      [TRecv (peer_datagram 7 10 5) (lit "peer", 6000) 0;
       TSend 1 1 first_instruction]
    = Ok (t', ps).
Proof.
  assert (Hp : (None : option address) <> None \/
   forall pre ms1 ms2 ti rest,
     [TRecv (peer_datagram 7 10 5) (lit "peer", 6000) 0;
      TSend 1 1 first_instruction]
     = pre ++ TSend ms1 ms2 ti :: rest ->
     last_received_addr pre <> None).
  { right. intros pre ms1 ms2 ti rest H.
    destruct pre as [|e1 [|e2 pre]]; cbn in H.
    - inversion H.
    - inversion H; subst. cbn. discriminate.
    - inversion H as [[He1 Hrest]]. destruct pre; discriminate. }
  assert (Hv : List.Forall (recv_valid (unmarshal_known [first_instruction]))
    [TRecv (peer_datagram 7 10 5) (lit "peer", 6000) 0;
     TSend 1 1 first_instruction]).
  { constructor; [|constructor; [exact I|constructor]].
    split; [vm_compute; reflexivity|].
    split; [apply Nat.leb_le; vm_compute; reflexivity|].
    eexists. vm_compute. reflexivity. }
  assert (Hn : Z.of_nat (length
    [TRecv (peer_datagram 7 10 5) (lit "peer", 6000) 0;
     TSend 1 1 first_instruction]) < 2 ^ 63)
    by (cbn; lia).
  split; [exact Hp|]. split; [exact Hv|]. split; [exact Hn|].
  exact (transport_never_fails _ None false _ Hp Hv Hn).
Defined.

Lemma Qmax_bounds (x y : Q) (hi : Q) :
  (x <= hi)%Q -> (y <= hi)%Q ->
  (x <= Qmax x y)%Q /\ (y <= Qmax x y)%Q /\ (Qmax x y <= hi)%Q.
Proof.
  intros Hx Hy. split; [apply Q.le_max_l|]. split; [apply Q.le_max_r|].
  apply Q.max_lub; assumption.
Qed.

Lemma rto_update_inv (t t1 : Transporter) (R : Q) :
  (0 <= R <= 65535 # 1000)%Q -> rto_inv t ->
  (srtt t1, rttvar t1, rto t1) = rto_update t R -> rto_inv t1.
Proof.
  intros HR (Hs & Hv & Hr) Heq. unfold rto_update in Heq.
  unfold G, K, alpha, beta in *.
  destruct (rttvar t) as [var|] eqn:Ev; [destruct (srtt t) as [s|] eqn:Es|].
  - remember (Qabs (s - R)) as a eqn:Ha.
    injection Heq as E1 E2 E3.
    specialize (Hs s eq_refl). specialize (Hv var eq_refl).
    assert (Hvar : (0 <= (1 - (1 # 4)) * var + (1 # 4) * a
                    <= 65535 # 1000)%Q)
      by (rewrite Ha; apply Qabs_case; intros; lra).
    assert (Hs' : (0 <= (1 - (1 # 8)) * s + (1 # 8) * R <= 65535 # 1000)%Q)
      by lra.
    destruct (Qmax_bounds (1 # 10) (4 * ((1 - (1 # 4)) * var + (1 # 4) * a))
                (4 * (65535 # 1000))) as (M1 & M2 & M3); [lra|lra|].
    split; [|split].
    + intros x Hx. rewrite E1 in Hx. injection Hx as <-. exact Hs'.
    + intros x Hx. rewrite E2 in Hx. injection Hx as <-. exact Hvar.
    + intros x Hx. rewrite E3 in Hx. injection Hx as <-. unfold G. lra.
  - injection Heq as E1 E2 E3.
    split; [|split].
    + intros x Hx. rewrite E1 in Hx. discriminate.
    + intros x Hx. rewrite E2 in Hx. exact (Hv x Hx).
    + intros x Hx. rewrite E3 in Hx. exact (Hr x Hx).
  - injection Heq as E1 E2 E3.
    destruct (Qmax_bounds (1 # 10) (4 * (R / 2)) (4 * (65535 # 1000)))
      as (M1 & M2 & M3); [lra|unfold Qdiv; change (/ 2)%Q with (1 # 2); lra|].
    split; [|split].
    + intros x Hx. rewrite E1 in Hx. injection Hx as <-. exact HR.
    + intros x Hx. rewrite E2 in Hx. injection Hx as <-.
      unfold Qdiv; change (/ 2)%Q with (1 # 2). lra.
    + intros x Hx. rewrite E3 in Hx. injection Hx as <-. unfold G. lra.
Qed.

Lemma rtt_sample_range (z : Z) :
  (0 <= inject_Z (Z.land z 65535) / 1000 <= 65535 # 1000)%Q.
Proof.
  assert (Hz : 0 <= Z.land z 65535 <= 65535).
  { change 65535 with (Z.ones 16). rewrite Z.land_ones by lia.
    pose proof (Z.mod_pos_bound z (2 ^ 16) ltac:(lia)).
    change (Z.ones 16) with 65535. lia. }
  assert (H1 : (0 <= inject_Z (Z.land z 65535))%Q)
    by (change 0%Q with (inject_Z 0); rewrite <- Zle_Qle; lia).
  assert (H2 : (inject_Z (Z.land z 65535) <= 65535)%Q)
    by (change 65535%Q with (inject_Z 65535); rewrite <- Zle_Qle; lia).
  unfold Qdiv. change (/ 1000)%Q with (1 # 1000)%Q. split; lra.
Qed.

Lemma run_transport_rto unmarshal (t t' : Transporter) (evs : list tevent)
  (ps : list Packet) :
  rto_inv t -> run_transport unmarshal t evs = Ok (t', ps) ->
  rto_inv t' /\
  (is_receiver t = true -> (srtt t', rttvar t', rto t') = (srtt t, rttvar t, rto t)).
Proof.
  revert t ps; induction evs as [|ev evs IH]; intros t ps Hi H.
  - injection H as <- <-. split; [exact Hi|reflexivity].
  - destruct ev as [a b c|raw addr ms]; cbn [run_transport] in H.
    + destruct (tsend t a b c) as [[t1 p]|e] eqn:E; cbn [rbind] in H;
        [|discriminate].
      destruct (run_transport unmarshal t1 evs) as [[t2 ps2]|e] eqn:E2;
        cbn [rbind] in H; [|discriminate].
      injection H as <- <-.
      destruct (tsend_fields _ _ _ _ _ _ E)
        as (_ & _ & _ & _ & _ & _ & Hs & Hv & Hr & Hb).
      assert (Hi1 : rto_inv t1).
      { destruct Hi as (H1 & H2 & H3). rewrite <- Hs, <- Hv, <- Hr in *.
        split; [exact H1|split; [exact H2|exact H3]]. }
      destruct (IH t1 ps2 Hi1 E2) as [Hi2 Hrec]. split; [exact Hi2|].
      intros Hb'. rewrite Hrec by congruence. rewrite Hs, Hv, Hr. reflexivity.
    + destruct (async_recv unmarshal t raw addr ms) as [t1 [ti1|e]] eqn:E;
        cbn [rbind] in H; [|discriminate].
      destruct (async_recv_fields _ _ _ _ _ _ _ E)
        as (_ & _ & _ & Hb & p & _ & _ & Htr & _).
      assert (Hi1 : rto_inv t1).
      { destruct (is_receiver t).
        - destruct Hi as (H1 & H2 & H3). injection Htr as Hs Hv Hr.
          split; [|split]; intros x Hx;
            [rewrite Hs in Hx; apply H1 | rewrite Hv in Hx; apply H2
            | rewrite Hr in Hx; apply H3]; exact Hx.
        - exact (rto_update_inv t t1 _ (rtt_sample_range _) Hi Htr). }
      destruct (IH t1 ps Hi1 H) as [Hi2 Hrec]. split; [exact Hi2|].
      intros Hb'. rewrite Hrec by congruence. rewrite Hb' in Htr. exact Htr.
Qed.

(** Along every run of a transporter, its RTO estimate, once set, stays
    between [G] = 0.1 s and 5 * 65.535 s, and its smoothed RTT between 0
    and 65.535 s (RTT samples are 16-bit millisecond differences); a
    transporter made with [is_receiver=True] never sets an estimate. *)
Theorem rto_bounds unmarshal (other : option address) (b : bool)
  (evs : list tevent) (t' : Transporter) (ps : list Packet)
  (H : run_transport unmarshal (Transporter_init other b) evs = Ok (t', ps)) :
  (forall r, rto t' = Some r -> G <= r <= 5 * (65535 # 1000))%Q /\
  (forall s, srtt t' = Some s -> 0 <= s <= 65535 # 1000)%Q /\
  (b = true -> rto t' = None /\ srtt t' = None).
Proof.
  assert (Hi : rto_inv (Transporter_init other b))
    by (split; [|split]; intros x Hx; discriminate).
  destruct (run_transport_rto _ _ _ _ _ Hi H) as [(H1 & _ & H3) Hrec].
  split; [exact H3|]. split; [exact H1|].
  intros ->. specialize (Hrec eq_refl). cbn in Hrec.
  injection Hrec as -> _ ->. split; reflexivity.
Qed.

Lemma rto_bounds_witness :
  exists t' ps,
    run_transport (unmarshal_known [first_instruction])
      (Transporter_init (Some (lit "peer", 6000)) false)
      [TSend 0 0 first_instruction;
       TRecv (peer_datagram 7 10 0) (lit "peer", 6000) 250]
    = Ok (t', ps) /\
    (forall r, rto t' = Some r -> G <= r <= 5 * (65535 # 1000))%Q /\
    (forall s, srtt t' = Some s -> 0 <= s <= 65535 # 1000)%Q /\
    (false = true -> rto t' = None /\ srtt t' = None).
Proof.
  eexists _, _. split; [vm_compute; reflexivity|].
  eapply (rto_bounds (unmarshal_known [first_instruction])
    (Some (lit "peer", 6000)) false
    [TSend 0 0 first_instruction;
     TRecv (peer_datagram 7 10 0) (lit "peer", 6000) 250]).
  vm_compute. reflexivity.
Defined.

(** ** The receive loop *)

Lemma on_receive_ok_step gmb (r r' : Receiver) (u : TransportInstruction)
  (acks : list TransportInstruction) :
  on_receive gmb r u = (r', Ok acks) ->
  total_packets_received r' = total_packets_received r + 1 /\
  ((states r' = states r /\ highest_received r' = highest_received r /\
    packets_discarded r' = packets_discarded r + 1 /\
    curr_stateno r' = curr_stateno r /\ acks = []) \/
   (exists s, states r' = <[new_num u := s]> (states r) /\
    highest_received r' = Z.max (highest_received r) (new_num u) /\
    packets_discarded r' = packets_discarded r /\
    curr_stateno r' = curr_stateno r + 1 /\ length acks = 1%nat)).
Proof.
  unfold on_receive.
  destruct (states r !! old_num u) as [old|].
  - destruct (State_apply old (diff u) (curr_stateno r)) as [[ns ctr]|e] eqn:E;
      [|discriminate].
    unfold State_apply in E.
    destruct (apply_patch (string old) (diff u)); cbn [rbind] in E;
      [|discriminate].
    injection E as <- <-.
    destruct (lookup_or_keyerror _ (Z.max _ _)); [|discriminate].
    destruct (lookup_or_keyerror _ 0); [|discriminate].
    intros H. injection H as <- <-. cbn. split; [reflexivity|].
    right. eexists. repeat split.
  - intros H. injection H as <- <-. cbn. split; [reflexivity|].
    left. repeat split.
Qed.

(** From a receiver whose [states] hold [0] and [highest_received], an
    exception of [on_receive] comes from [State.apply] and leaves only the
    counter incremented. *)
Lemma on_receive_err_step gmb (r r' : Receiver) (u : TransportInstruction)
  (e : pyerr) :
  is_Some (states r !! 0) -> is_Some (states r !! highest_received r) ->
  on_receive gmb r u = (r', Err e) ->
  states r' = states r /\ highest_received r' = highest_received r /\
  total_packets_received r' = total_packets_received r + 1 /\
  packets_discarded r' = packets_discarded r /\
  curr_stateno r' = curr_stateno r.
Proof.
  intros [v0 H0] [vh Hh]. unfold on_receive.
  destruct (states r !! old_num u) as [old|]; [|discriminate].
  destruct (State_apply old (diff u) (curr_stateno r)) as [[ns ctr]|e'].
  - set (st := <[new_num u := ns]> (states r)).
    assert (Hhi : exists v, st !! Z.max (highest_received r) (new_num u) = Some v).
    { subst st.
      destruct (decide (Z.max (highest_received r) (new_num u) = new_num u)) as [E|E].
      - rewrite E, lookup_insert_eq. eauto.
      - rewrite lookup_insert_ne by congruence.
        replace (Z.max (highest_received r) (new_num u)) with (highest_received r)
          by lia. eauto. }
    destruct Hhi as [vh' Hh']. rewrite (lookup_or_keyerror_some _ _ _ Hh').
    assert (Hz : exists v, st !! 0 = Some v).
    { subst st. destruct (decide (new_num u = 0)) as [E|E].
      - rewrite E, lookup_insert_eq. eauto.
      - rewrite lookup_insert_ne by congruence. eauto. }
    destruct Hz as [s0 Hs0]. rewrite (lookup_or_keyerror_some _ _ _ Hs0).
    discriminate.
  - intros H. injection H as <- _. cbn. repeat split.
Qed.

Lemma update_listener_gen gmb (r r' : Receiver)
  (updates acks : list TransportInstruction) (res : result unit) :
  listener_inv r -> update_listener gmb r updates = (r', acks, res) ->
  (res = Ok tt ->
   listener_inv r' /\
   total_packets_received r'
   = total_packets_received r + Z.of_nat (length updates)) /\
  total_packets_received r' <= total_packets_received r + Z.of_nat (length updates) /\
  0 <= packets_discarded r' <= total_packets_received r' /\
  Z.of_nat (length acks) + (match res with Ok _ => 0 | Err _ => 1 end)
  = (total_packets_received r' - packets_discarded r')
    - (total_packets_received r - packets_discarded r).
Proof.
  revert r acks res; induction updates as [|u updates IH]; intros r acks res Hi H.
  - injection H as <- <- <-. destruct Hi as (H0 & Hh & Hk & Hd & Hc).
    split; [intros _; split; [split; [exact H0|split; [exact Hh|split; [exact Hk|split; [exact Hd|exact Hc]]]]|cbn; lia]|].
    cbn. lia.
  - cbn [update_listener] in H.
    destruct Hi as (H0 & Hh & Hk & Hd & Hc).
    destruct (on_receive gmb r u) as [r1 [a1|e]] eqn:E.
    + destruct (update_listener gmb r1 updates) as [[r2 a2] res2] eqn:E2.
      injection H as <- <- <-.
      assert (Hi1 : listener_inv r1 /\
        Z.of_nat (length a1) = (total_packets_received r1 - packets_discarded r1)
                               - (total_packets_received r - packets_discarded r)).
      { destruct (on_receive_ok_step gmb r r1 u a1 E)
          as [Ht [(Hs & Hh1 & Hd1 & Hc1 & ->)|(s & Hs & Hh1 & Hd1 & Hc1 & Hl1)]].
        - split; [|cbn; lia]. unfold listener_inv.
          rewrite Hs, Hh1. split; [exact H0|]. split; [exact Hh|].
          split; [exact Hk|]. lia.
        - split; [|lia]. unfold listener_inv.
          rewrite Hs, Hh1. split; [|split; [|split; [|lia]]].
          + destruct (decide (new_num u = 0)) as [->|Hne];
              [rewrite lookup_insert_eq; eexists; reflexivity|].
            rewrite lookup_insert_ne by congruence. exact H0.
          + destruct (Z.max_spec (highest_received r) (new_num u))
              as [[_ ->]|[_ ->]].
            * rewrite lookup_insert_eq. eexists; reflexivity.
            * destruct (decide (new_num u = highest_received r)) as [->|Hne];
                [rewrite lookup_insert_eq; eexists; reflexivity|].
              rewrite lookup_insert_ne by congruence. exact Hh.
          + intros k s' Hks.
            destruct (decide (new_num u = k)) as [<-|Hne]; [lia|].
            rewrite lookup_insert_ne in Hks by exact Hne.
            specialize (Hk k s' Hks). lia. }
      destruct Hi1 as [Hi1 Hl1].
      destruct (IH r1 a2 res2 Hi1 E2) as (Hok2 & Ht2 & Hd2 & Hl2).
      pose proof (on_receive_ok_step gmb r r1 u a1 E) as [Ht1 _].
      rewrite length_app. cbn [length].
      split; [|split; [lia|split; [exact Hd2|lia]]].
      intros Hres. destruct (Hok2 Hres) as [Hi2 Ht2']. split; [exact Hi2|lia].
    + injection H as <- <- <-.
      destruct (on_receive_err_step gmb r r1 u e H0 Hh E)
        as (Hs & Hh1 & Ht1 & Hd1 & Hc1).
      split; [discriminate|]. cbn [length]. lia.
Qed.

Lemma listener_inv_init : listener_inv receiver_init.
Proof.
  split; [eexists; reflexivity|]. split; [eexists; reflexivity|].
  split; [|cbn; lia].
  intros k s Hk. cbn in Hk.
  destruct (decide (k = 0)) as [->|Hne]; [cbn; lia|].
  rewrite lookup_singleton_ne in Hk by congruence. discriminate.
Qed.

(** Along every run of [update_listener] from module import: the lookups
    [states[0]] and [states[highest_received]] that [on_receive] makes
    never raise, [highest_received] is the largest state number stored,
    [packets_discarded] stays between 0 and [total_packets_received]
    (which counts every instruction), one acknowledgment is sent per
    accepted instruction, and the receiver has constructed one [State]
    per accepted instruction after the initial one. *)
Theorem update_listener_invariants gmb (updates : list TransportInstruction)
  (r : Receiver) (acks : list TransportInstruction)
  (H : update_listener gmb receiver_init updates = (r, acks, Ok tt)) :
  is_Some (states r !! 0) /\ is_Some (states r !! highest_received r) /\
  (forall k s, states r !! k = Some s -> k <= highest_received r) /\
  total_packets_received r = Z.of_nat (length updates) /\
  0 <= packets_discarded r <= total_packets_received r /\
  Z.of_nat (length acks) = total_packets_received r - packets_discarded r /\
  curr_stateno r = 2 + Z.of_nat (length acks).
Proof.
  destruct (update_listener_gen gmb _ _ _ _ _ listener_inv_init H)
    as (Hok & _ & _ & Hl).
  destruct (Hok eq_refl) as ((H0 & Hh & Hk & Hd & Hc) & Ht).
  cbn in Ht, Hl. split; [exact H0|]. split; [exact Hh|]. split; [exact Hk|].
  split; [lia|]. split; [exact Hd|]. split; lia.
Qed.

Lemma update_listener_invariants_witness :
  exists r acks,
    update_listener prefix_blocks receiver_init
      [first_instruction; mkTI 5 6 0 0 (JArr [])] = (r, acks, Ok tt) /\
    is_Some (states r !! 0) /\ is_Some (states r !! highest_received r) /\
    (forall k s, states r !! k = Some s -> k <= highest_received r) /\
    total_packets_received r = 2 /\
    0 <= packets_discarded r <= total_packets_received r /\
    Z.of_nat (length acks) = total_packets_received r - packets_discarded r /\
    curr_stateno r = 2 + Z.of_nat (length acks).
Proof.
  eexists _, _. split; [vm_compute; reflexivity|].
  eapply (update_listener_invariants prefix_blocks
            [first_instruction; mkTI 5 6 0 0 (JArr [])]).
  vm_compute. reflexivity.
Defined.

Lemma discard_pct_range (d t : Z) :
  0 <= d <= t ->
  (0 <= (if 0 <? t then 100 * inject_Z d / inject_Z t else 0) <= 100)%Q.
Proof.
  intros Hd. destruct (Z.ltb_spec 0 t) as [Ht|Ht]; [|lra].
  assert (Htq : (0 < inject_Z t)%Q) by (unfold Qlt, inject_Z; cbn; lia).
  assert (Hdq : (0 <= inject_Z d)%Q) by (unfold Qle, inject_Z; cbn; lia).
  assert (Hdt : (inject_Z d <= inject_Z t)%Q) by (unfold Qle, inject_Z; cbn; lia).
  split.
  - apply Qle_shift_div_l; [exact Htq|]. lra.
  - apply Qle_shift_div_r; [exact Htq|]. lra.
Qed.

(** [get_discard_stats()] after a run of [update_listener] from module
    import, whether the run is still going or was ended by an exception
    (as in [mosh_server.main], which reads the statistics in a [finally]
    clause): [packets_accepted] is the number of acknowledgments sent,
    plus one when an exception of [State.apply] ended the run (that
    instruction was counted but neither stored nor discarded). It lies
    between 0 and [total_packets_received], which is at most the number
    of instructions received; [discard_percentage] lies between 0 and
    100, and is 0 when nothing was received. *)
Theorem discard_stats_bounds gmb (updates : list TransportInstruction)
  (r : Receiver) (acks : list TransportInstruction) (res : result unit)
  (H : update_listener gmb receiver_init updates = (r, acks, res)) :
  let ds := get_discard_stats r in
  ds_packets_accepted ds
  = Z.of_nat (length acks) + (match res with Ok _ => 0 | Err _ => 1 end) /\
  0 <= ds_packets_discarded ds <= ds_total_packets_received ds /\
  0 <= ds_packets_accepted ds <= ds_total_packets_received ds /\
  ds_total_packets_received ds <= Z.of_nat (length updates) /\
  (0 <= ds_discard_percentage ds <= 100)%Q /\
  (updates = [] -> ds_discard_percentage ds = 0%Q).
Proof.
  destruct (update_listener_gen gmb _ _ _ _ _ listener_inv_init H)
    as (_ & Ht & Hd & Hl).
  cbn in Ht, Hl. cbn zeta. unfold get_discard_stats. cbn [ds_total_packets_received
    ds_packets_accepted ds_packets_discarded ds_discard_percentage].
  split; [lia|]. split; [lia|]. split; [lia|]. split; [lia|].
  split; [apply discard_pct_range; exact Hd|].
  intros ->. cbn [length Z.of_nat] in Ht.
  replace (total_packets_received r) with 0 by lia. reflexivity.
Qed.

Lemma discard_stats_bounds_witness :
  exists r acks e,
    update_listener prefix_blocks receiver_init
      [first_instruction; mkTI 1 2 0 0 (JArr [JArr [JStr (lit "replace")]])]
    = (r, acks, Err e) /\
    length acks = 1%nat /\ ds_packets_accepted (get_discard_stats r) = 2 /\
    (let ds := get_discard_stats r in
    ds_packets_accepted ds
    = Z.of_nat (length acks) + (match (Err e : result unit) with Ok _ => 0 | Err _ => 1 end) /\
    0 <= ds_packets_discarded ds <= ds_total_packets_received ds /\
    0 <= ds_packets_accepted ds <= ds_total_packets_received ds /\
    ds_total_packets_received ds
    <= Z.of_nat (length [first_instruction; mkTI 1 2 0 0 (JArr [JArr [JStr (lit "replace")]])]) /\
    (0 <= ds_discard_percentage ds <= 100)%Q /\
    ([first_instruction; mkTI 1 2 0 0 (JArr [JArr [JStr (lit "replace")]])] = [] ->
     ds_discard_percentage ds = 0%Q)).
Proof.
  destruct (update_listener prefix_blocks receiver_init
    [first_instruction; mkTI 1 2 0 0 (JArr [JArr [JStr (lit "replace")]])])
    as [[r acks] res] eqn:Hrun.
  pose proof (discard_stats_bounds prefix_blocks
    [first_instruction; mkTI 1 2 0 0 (JArr [JArr [JStr (lit "replace")]])]
    r acks res Hrun) as Hb.
  vm_compute in Hrun. injection Hrun as Er Ea Eres. subst r acks res.
  eexists _, _, _. split; [reflexivity|].
  split; [vm_compute; reflexivity|]. split; [vm_compute; reflexivity|].
  exact Hb.
Defined.
